(** * Jira ticket viewer: a shallow embedding of the decision logic

    The development follows the Python sources module by module:
    ticket filtering, SLA highlighting and status transitions
    (JiraTicketGUI_enhanced.py, search_filter.py, ticket_operations.py),
    the reminder store (reminder_manager.py), the comment monitor
    (comment_monitor.py), the triage post-processing (ai_summarizer.py,
    ai_settings.py) and the licensing chain (license_manager.py,
    license_validator.py).

    Python text is represented by Rocq strings; outside ASCII the bytes of a
    string are the UTF-8 encoding of the text.  Definitions come first, the
    properties proved about them follow in the second half of the file. *)

From Stdlib Require Import ZArith Lia List Bool Ascii String DecimalString
  DecimalPos.
From stdpp Require Import gmap strings.
Import ListNotations.

Local Open Scope string_scope.
Local Open Scope Z_scope.
Set Warnings "-register-all".

(** ** Python string operations used by the sources *)

Module Py.

(** [str.lower()] on the ASCII range; bytes of non-ASCII characters are left
    as they are. *)
Definition lower_char (c : ascii) : ascii :=
  let n := N_of_ascii c in
  if ((65 <=? n) && (n <=? 90))%N then ascii_of_N (n + 32) else c.

Fixpoint lower (s : string) : string :=
  match s with
  | EmptyString => EmptyString
  | String c s' => String (lower_char c) (lower s')
  end.

(** [s.startswith(p)] *)
Fixpoint starts_with (p s : string) : bool :=
  match p, s with
  | EmptyString, _ => true
  | String a p', String b s' => Ascii.eqb a b && starts_with p' s'
  | String _ _, EmptyString => false
  end.

(** [s] without the literal [lit] in front, when it starts with it. *)
Fixpoint strip_prefix (lit s : string) : option string :=
  match lit, s with
  | EmptyString, _ => Some s
  | String a lit', String b s' =>
      if Ascii.eqb a b then strip_prefix lit' s' else None
  | String _ _, EmptyString => None
  end.

(** [needle in hay] for strings: substring containment. *)
Fixpoint contains (needle hay : string) : bool :=
  starts_with needle hay ||
  match hay with
  | EmptyString => false
  | String _ hay' => contains needle hay'
  end.

(** [any(k in s for k in keywords)] *)
Definition any_in (keywords : list string) (s : string) : bool :=
  existsb (fun k => contains k s) keywords.

(** [x in [a, b, ...]] for a list of strings: equality with some element. *)
Definition mem (x : string) (l : list string) : bool :=
  existsb (String.eqb x) l.

(** [sep.join(l)] *)
Fixpoint join (sep : string) (l : list string) : string :=
  match l with
  | [] => ""
  | [x] => x
  | x :: l' => x ++ sep ++ join sep l'
  end.

(** [s.replace(old, new)] for a one-character [old]. *)
Fixpoint replace_char (old : ascii) (new : string) (s : string) : string :=
  match s with
  | EmptyString => EmptyString
  | String c s' =>
      if Ascii.eqb c old then new ++ replace_char old new s'
      else String c (replace_char old new s')
  end.

(** *** Exceptions

    A call either returns a value or raises; an exception is its class name
    and the text [str(e)] gives for it. *)
Inductive exn := Exn (cls msg : string).

Definition exn_msg (e : exn) : string := let (_, m) := e in m.

Inductive exc (A : Type) :=
| Ret (a : A)
| Raise (e : exn).
Arguments Ret {A} a.
Arguments Raise {A} e.

Definition bind {A B : Type} (m : exc A) (k : A -> exc B) : exc B :=
  match m with
  | Ret a => k a
  | Raise e => Raise e
  end.

(** *** datetime

    A naive datetime is a wall-clock reading, an aware one an instant; both
    are counted in microseconds.  [datetime.now()] reads the local wall
    clock, [datetime.now(tz)] the instant. *)
Inductive datetime :=
| Naive (us : Z)
| Aware (us : Z).

Record clock := { local_now : Z; utc_now : Z }.

Definition now_like (c : clock) (d : datetime) : datetime :=
  match d with
  | Naive _ => Naive (local_now c)
  | Aware _ => Aware (utc_now c)
  end.

Definition second_us : Z := 1000000.
Definition hour_us : Z := 3600 * second_us.
Definition day_us : Z := 24 * hour_us.

(** [a - b] for datetimes, as a number of microseconds. *)
Definition dt_sub (a b : datetime) : exc Z :=
  match a, b with
  | Naive x, Naive y | Aware x, Aware y => Ret (x - y)
  | _, _ => Raise (Exn "TypeError"
                     "can't subtract offset-naive and offset-aware datetimes")
  end.

(** [a >= b] for datetimes. *)
Definition dt_ge (a b : datetime) : exc bool :=
  match a, b with
  | Naive x, Naive y | Aware x, Aware y => Ret (y <=? x)
  | _, _ => Raise (Exn "TypeError"
                     "can't compare offset-naive and offset-aware datetimes")
  end.

(** [a > b] for datetimes. *)
Definition dt_gt (a b : datetime) : exc bool :=
  match a, b with
  | Naive x, Naive y | Aware x, Aware y => Ret (y <? x)
  | _, _ => Raise (Exn "TypeError"
                     "can't compare offset-naive and offset-aware datetimes")
  end.

(** [a < b] for datetimes. *)
Definition dt_lt (a b : datetime) : exc bool :=
  match a, b with
  | Naive x, Naive y | Aware x, Aware y => Ret (x <? y)
  | _, _ => Raise (Exn "TypeError"
                     "can't compare offset-naive and offset-aware datetimes")
  end.

End Py.

Notation "'try!' x ':=' m 'in' k" := (Py.bind m (fun x => k))
  (at level 10, x name, m at level 100, k at level 200, only parsing).

(** ** Tickets, filters, SLA and transitions *)

Module Tickets.

(** The part of the backend's issue JSON that the code reads.  An absent key
    (or a null/empty object where the code tests truthiness) is [None]. *)
Record named := { name : option string }.
Record person := { emailAddress : option string; displayName : option string }.

Record fields_t := {
  summary : option string;
  created : option string;
  status : option named;
  priority : option named;
  issuetype : option named;
  reporter : option person;
  assignee : option person
}.

Record issue := { key : option string; fields : option fields_t }.

Definition no_fields : fields_t :=
  {| summary := None; created := None; status := None; priority := None;
     issuetype := None; reporter := None; assignee := None |}.

(** [issue.get('fields', {})] *)
Definition get_fields (i : issue) : fields_t :=
  match fields i with Some f => f | None => no_fields end.

(** [x.get('name', '')] *)
Definition get_name (n : named) : string :=
  match name n with Some s => s | None => "" end.

(** [status.get('name', '').lower() if status else ''] *)
Definition lowered_name (o : option named) : string :=
  match o with Some n => Py.lower (get_name n) | None => "" end.

(** [p.get('emailAddress', '') if p else ''] *)
Definition email_of (o : option person) : string :=
  match o with
  | Some p => match emailAddress p with Some e => e | None => "" end
  | None => ""
  end.

Definition completed_statuses : list string :=
  ["done"; "closed"; "resolved"; "complete"; "completed"; "finished"].

(** [any(completed_status in status_name for completed_status in
    completed_statuses)] on the lowered status name of an issue. *)
Definition status_is_completed (i : issue) : bool :=
  Py.any_in completed_statuses (lowered_name (status (get_fields i))).

(** *** JiraTicketGUI_enhanced.py, [filter_tickets] *)

Module Enhanced.

(** One pass of the loop body: [true] when the issue is appended to
    [tickets_to_show], [false] when a [continue] is taken. *)
Definition keeps (ticket_filter : string) (hide_completed : bool)
    (user_email : string) (i : issue) : bool :=
  let f := get_fields i in
  let main :=
    if String.eqb ticket_filter "My Tickets" then
      Py.mem user_email [email_of (reporter f); email_of (assignee f)]
    else if String.eqb ticket_filter "All Open" then
      negb (Py.any_in completed_statuses (lowered_name (status f)))
    else if String.eqb ticket_filter "Unassigned" then
      match assignee f with Some _ => false | None => true end
    else true in
  if negb main then false
  else if hide_completed && negb (String.eqb ticket_filter "All Open") then
    negb (Py.any_in completed_statuses (lowered_name (status f)))
  else true.

Definition tickets_to_show (all_tickets : list issue) (ticket_filter : string)
    (hide_completed : bool) (user_email : string) : list issue :=
  List.filter (keeps ticket_filter hide_completed user_email) all_tickets.

(** The method returns early, leaving the display as it is, when the cache
    is empty; otherwise the filtered list is displayed. *)
Definition filter_tickets (all_tickets : list issue) (ticket_filter : string)
    (hide_completed : bool) (user_email : string) : option (list issue) :=
  match all_tickets with
  | [] => None
  | _ => Some (tickets_to_show all_tickets ticket_filter hide_completed user_email)
  end.

End Enhanced.

(** *** search_filter.py, [SearchFilterManager.filter_tickets] *)

Module SearchFilter.

Definition keeps (ticket_filter issue_type_filter : string)
    (hide_completed : bool) (user_email : string) (i : issue) : bool :=
  let f := get_fields i in
  let owner :=
    if String.eqb ticket_filter "My Tickets" then
      Py.mem user_email [email_of (reporter f); email_of (assignee f)]
    else if String.eqb ticket_filter "Unassigned" then
      match assignee f with Some _ => false | None => true end
    else true in
  if negb owner then false
  else if negb (String.eqb issue_type_filter "All")
          && negb (String.eqb
                     (match issuetype f with Some n => get_name n | None => "" end)
                     issue_type_filter)
  then false
  else if hide_completed then
    (* [status in completed_statuses]: membership in the list of names *)
    negb (Py.mem (match status f with
                  | Some n => Py.lower (get_name n)
                  | None => ""
                  end) completed_statuses)
  else true.

Definition tickets_to_show (all_tickets : list issue)
    (ticket_filter issue_type_filter : string) (hide_completed : bool)
    (user_email : string) : list issue :=
  List.filter (keeps ticket_filter issue_type_filter hide_completed user_email)
    all_tickets.

Definition filter_tickets (all_tickets : list issue)
    (ticket_filter issue_type_filter : string) (hide_completed : bool)
    (user_email : string) : option (list issue) :=
  match all_tickets with
  | [] => None
  | _ => Some (tickets_to_show all_tickets ticket_filter issue_type_filter
                 hide_completed user_email)
  end.

End SearchFilter.

(** *** JiraTicketGUI_enhanced.py, [is_sla_missed] *)

Section Sla.

(** [datetime.fromisoformat]; the accepted formats depend on the
    interpreter version, so the parser is a parameter. *)
Variable fromisoformat : string -> Py.exc Py.datetime.

Variable clk : Py.clock.

(** [(now - created_dt)] with [now = datetime.now(created_dt.tzinfo)], in
    microseconds. *)
Definition elapsed_since (created_dt : Py.datetime) : Z :=
  match created_dt with
  | Py.Naive c => Py.local_now clk - c
  | Py.Aware c => Py.utc_now clk - c
  end.

(** [total_seconds() / 3600 > 96] is a comparison of floats in the source.
    The elapsed time is a whole number of microseconds and both divisions
    are correctly rounded and monotone, 345600 and 96 are exact, and the
    spacing of doubles at those magnitudes is far below a microsecond, so
    the comparison agrees with the exact one written here. *)
Definition is_sla_missed (i : issue) : bool :=
  let f := get_fields i in
  let created := match created f with Some s => s | None => "" end in
  let status_name := lowered_name (status f) in
  let priority_name := lowered_name (priority f) in
  if Py.any_in completed_statuses status_name then false
  else if String.eqb created "" then false
  else
    match fromisoformat (Py.replace_char "Z" "+00:00" created) with
    | Py.Ret created_dt =>
        let sla_window := 96 in
        sla_window * Py.hour_us <? elapsed_since created_dt
    | Py.Raise _ => false
    end.

End Sla.

(** *** Status transitions *)

Record transition := { t_id : string; t_name : string; t_to : string }.

(** What an action does once the transitions are fetched. *)
Inductive outcome :=
| ShowError (msg : string)
| ShowWarning (msg : string)
| Nothing
| Apply (t : transition).

Definition matching (keywords : list string) (ts : list transition) : list transition :=
  List.filter (fun t => Py.any_in keywords (Py.lower (t_name t))) ts.

(** ticket_operations.py, [close_ticket] / [do_close].  [transitions_data]
    is [None] when the request failed or the answer has no ['transitions'];
    [choice] is the operator's answer to the yes/no/cancel question, asked
    only when several transitions match. *)
Definition close_ticket (transitions_data : option (list transition))
    (choice : option bool) : outcome :=
  match transitions_data with
  | None => ShowError "Could not get available transitions for this ticket"
  | Some ts =>
      let close_transitions := matching ["close"; "done"; "complete"; "resolve"] ts in
      match close_transitions with
      | [] =>
          ShowWarning ("No close transition available. Available transitions: "
                       ++ Py.join ", " (map t_name ts))
      | selected :: rest =>
          if (1 <? Z.of_nat (List.length close_transitions))
             && negb (match choice with Some true => true | _ => false end)
          then Nothing
          else Apply selected
      end
  end.

(** ticket_operations.py, [resolve_ticket] / [do_resolve]. *)
Definition resolve_ticket (transitions_data : option (list transition)) : outcome :=
  match transitions_data with
  | None => ShowError "Could not get available transitions for this ticket"
  | Some ts =>
      match matching ["resolve"] ts with
      | [] =>
          ShowWarning ("No resolve transition available. Available transitions: "
                       ++ Py.join ", " (map t_name ts))
      | selected :: _ => Apply selected
      end
  end.

(** JiraTicketGUI_enhanced.py, [close_ticket]: no dialog on any path before
    the transition is posted. *)
Definition enhanced_close_ticket (transitions_data : option (list transition)) : outcome :=
  match transitions_data with
  | None => Nothing
  | Some ts =>
      match matching ["close"; "done"; "complete"] ts with
      | [] => Nothing
      | selected :: _ => Apply selected
      end
  end.

(** JiraTicketGUI_enhanced.py, [open_ticket] (the reopen action). *)
Definition open_ticket (transitions_data : option (list transition)) : outcome :=
  match transitions_data with
  | None => Nothing
  | Some ts =>
      match matching ["open"; "reopen"; "start"] ts with
      | [] => Nothing
      | selected :: _ => Apply selected
      end
  end.

End Tickets.

(** ** Reminders (reminder_manager.py) *)

Module Reminders.

(** A record of the persisted list.  [snoozed_until] is [None] for the JSON
    null written by [add_reminder]. *)
Record reminder := {
  r_id : Z;
  title : string;
  description : string;
  due_date : string;
  r_type : string;
  priority : string;
  created : string;
  completed : bool;
  completed_date : option string;
  snoozed_until : option string
}.

Section DueReminders.

Variable fromisoformat : string -> Py.exc Py.datetime.
Variable clk : Py.clock.

(** [reminder.get("snoozed_until")] as a condition: set and not empty. *)
Definition snooze_text (r : reminder) : option string :=
  match snoozed_until r with
  | Some s => if String.eqb s "" then None else Some s
  | None => None
  end.

(** One pass of the loop body of [get_due_reminders]: the list of due
    reminders after the pass, or the exception that leaves the method. *)
Definition due_step (now : Py.datetime) (due_reminders : list reminder)
    (r : reminder) : Py.exc (list reminder) :=
  if completed r then Py.Ret due_reminders
  else
    try! snoozed :=
      match snooze_text r with
      | Some s =>
          try! snooze_time := fromisoformat s in
          Py.dt_lt now snooze_time
      | None => Py.Ret false
      end in
    if (snoozed : bool) then Py.Ret due_reminders
    else
      try! due := fromisoformat (due_date r) in
      try! is_due := Py.dt_ge now due in
      Py.Ret (if (is_due : bool) then (due_reminders ++ [r])%list else due_reminders).

Fixpoint due_loop (now : Py.datetime) (due_reminders : list reminder)
    (rs : list reminder) : Py.exc (list reminder) :=
  match rs with
  | [] => Py.Ret due_reminders
  | r :: rs' =>
      try! acc := due_step now due_reminders r in
      due_loop now acc rs'
  end.

Definition get_due_reminders (reminders : list reminder) : Py.exc (list reminder) :=
  let now := Py.Naive (Py.local_now clk) in
  due_loop now [] reminders.

End DueReminders.

End Reminders.

(** ** Comment monitor (comment_monitor.py) *)

Module Monitor.

Record comment := { c_id : string; c_author : option string; c_body : string }.

(** An element of [new_comments]. *)
Record new_comment := {
  ticket_key : string;
  ticket_summary : string;
  nc_comment : comment
}.

(** The fields of the monitor that the scans read and write, and the number
    of [_show_notification] calls scheduled on the UI thread so far. *)
Record monitor := {
  known_comments : gmap string (list string);
  new_comments : list new_comment;
  notifications : nat
}.


(** [ticket.get('key')] as a condition: present and not empty. *)
Definition key_of (t : Tickets.issue) : option string :=
  match Tickets.key t with
  | Some k => if String.eqb k "" then None else Some k
  | None => None
  end.

(** [ticket.get('fields', {}).get('summary', '')] *)
Definition summary_of (t : Tickets.issue) : string :=
  match Tickets.summary (Tickets.get_fields t) with Some s => s | None => "" end.

Definition ids (comments : list comment) : list string := map c_id comments.

Section Scans.

(** [_get_ticket_comments]: the comments the backend returns for a key
    during one scan, [[]] when the request fails or has no comments. *)
Variable get_ticket_comments : string -> list comment.

(** [_scan_current_tickets], the loop over [all_tickets]. *)
Fixpoint scan_loop (known : gmap string (list string))
    (tickets : list Tickets.issue) : gmap string (list string) :=
  match tickets with
  | [] => known
  | ticket :: rest =>
      match key_of ticket with
      | Some ticket_key =>
          match get_ticket_comments ticket_key with
          | [] => scan_loop known rest
          | comments => scan_loop (<[ticket_key := ids comments]> known) rest
          end
      | None => scan_loop known rest
      end
  end.

(** [all_tickets] is [None] when the application has no such attribute. *)
Definition scan_current_tickets (all_tickets : option (list Tickets.issue))
    (m : monitor) : monitor :=
  match all_tickets with
  | None => m
  | Some tickets =>
      {| known_comments := scan_loop (known_comments m) tickets;
         new_comments := new_comments m;
         notifications := notifications m |}
  end.

(** The entries one ticket adds to [new_comments_found]. *)
Definition found_for (known : gmap string (list string)) (ticket : Tickets.issue)
    (ticket_key : string) (comments : list comment) : list new_comment :=
  match known !! ticket_key with
  | Some known_ids =>
      let new_ids :=
        List.filter (fun cid => negb (Py.mem cid known_ids)) (ids comments) in
      match new_ids with
      | [] => []
      | _ =>
          map (fun c => {| ticket_key := ticket_key;
                           ticket_summary := summary_of ticket;
                           nc_comment := c |})
            (List.filter (fun c => Py.mem (c_id c) new_ids) comments)
      end
  | None => []
  end.

(** [_check_for_new_comments], the loop over [all_tickets]. *)
Fixpoint check_loop (known : gmap string (list string))
    (new_comments_found : list new_comment) (tickets : list Tickets.issue)
  : gmap string (list string) * list new_comment :=
  match tickets with
  | [] => (known, new_comments_found)
  | ticket :: rest =>
      match key_of ticket with
      | None => check_loop known new_comments_found rest
      | Some ticket_key =>
          match get_ticket_comments ticket_key with
          | [] => check_loop known new_comments_found rest
          | comments =>
              check_loop (<[ticket_key := ids comments]> known)
                (new_comments_found ++ found_for known ticket ticket_key comments)%list
                rest
          end
      end
  end.

Definition check_for_new_comments (all_tickets : option (list Tickets.issue))
    (m : monitor) : monitor :=
  match all_tickets with
  | None => m
  | Some tickets =>
      let (known, new_comments_found) := check_loop (known_comments m) [] tickets in
      match new_comments_found with
      | [] =>
          {| known_comments := known; new_comments := new_comments m;
             notifications := notifications m |}
      | _ =>
          {| known_comments := known;
             new_comments := (new_comments m ++ new_comments_found)%list;
             notifications := S (notifications m) |}
      end
  end.

End Scans.


(** [_monitor_loop]: the baseline scan, then one check per wake-up.  Each
    element of [wakeups] is what the backend answers during that check. *)
Definition monitor_loop (all_tickets : option (list Tickets.issue))
    (baseline : string -> list comment)
    (wakeups : list (string -> list comment)) (m : monitor) : monitor :=
  fold_left (fun m backend => check_for_new_comments backend all_tickets m)
    wakeups (scan_current_tickets baseline all_tickets m).

End Monitor.

(** ** Triage reply post-processing (ai_summarizer.py, ai_settings.py) *)

Module Triage.


(** *** The pieces of [str] and [re] the method uses *)


(** Whitespace as [\s] and [strip()] see it on ASCII text. *)
Definition is_space (c : ascii) : bool :=
  let n := N_of_ascii c in
  (((9 <=? n) && (n <=? 13)) || ((28 <=? n) && (n <=? 32)))%N.

(** The longest prefix whose characters satisfy [p], and what follows. *)
Fixpoint span (p : ascii -> bool) (s : string) : string * string :=
  match s with
  | EmptyString => ("", "")
  | String c s' =>
      if p c then let (a, b) := span p s' in (String c a, b) else ("", s)
  end.

Definition lstrip (s : string) : string := snd (span is_space s).

Fixpoint rstrip (s : string) : string :=
  match s with
  | EmptyString => ""
  | String c s' =>
      match rstrip s' with
      | EmptyString => if is_space c then "" else String c ""
      | r => String c r
      end
  end.

(** [s.strip()] *)
Definition strip (s : string) : string := rstrip (lstrip s).

(** [s.split(pattern)[0]]: the text before the first occurrence. *)
Fixpoint before (pattern s : string) : string :=
  if Py.starts_with pattern s then ""
  else match s with
       | EmptyString => ""
       | String c s' => String c (before pattern s')
       end.

(** [re.sub]: [matcher] tries the pattern at the start of the text and
    returns the replacement for the match together with the text after it;
    the scan moves on one character where the pattern does not match.  None
    of the patterns below matches the empty string, so [fuel] steps suffice
    for a text of [fuel] characters. *)
Fixpoint re_sub_fuel (fuel : nat) (matcher : string -> option (string * string))
    (s : string) : string :=
  match fuel with
  | O => s
  | S fuel' =>
      match matcher s with
      | Some (replacement, rest) => replacement ++ re_sub_fuel fuel' matcher rest
      | None =>
          match s with
          | EmptyString => ""
          | String c s' => String c (re_sub_fuel fuel' matcher s')
          end
      end
  end.

Definition re_sub (matcher : string -> option (string * string)) (s : string) : string :=
  re_sub_fuel (String.length s) matcher s.

(** [re.sub(r'\s+', ' ', _)] *)
Definition spaces_to_one (s : string) : option (string * string) :=
  match span is_space s with
  | (EmptyString, _) => None
  | (_, rest) => Some (" ", rest)
  end.





(** *** ai_summarizer.py, [_clean_text_for_encoding]

    Every character outside printable ASCII, tab, newline and carriage
    return becomes a space; on the UTF-8 bytes of the text a character
    outside ASCII gives several spaces where the source gives one, and the
    collapse of whitespace runs that follows makes the two agree.  The first
    pass of the method (characters that cp1252 cannot encode become spaces)
    only touches characters that the second pass blanks anyway. *)
Definition printable_or_blank (c : ascii) : ascii :=
  let n := N_of_ascii c in
  if ((32 <=? n) && (n <=? 126))%N then c
  else if ((n =? 9) || (n =? 10) || (n =? 13))%N then c
  else " "%char.

Fixpoint map_chars (f : ascii -> ascii) (s : string) : string :=
  match s with
  | EmptyString => ""
  | String c s' => String (f c) (map_chars f s')
  end.

Definition clean_text_for_encoding (text : string) : string :=
  let clean_text := map_chars printable_or_blank text in
  strip (re_sub spaces_to_one clean_text).

(** *** ai_settings.py, [get_signature_block] *)




(** *** ai_summarizer.py, [_format_triage_response] *)






End Triage.

(** ** JSON values, as the Python objects [json.loads] builds *)

Module Json.

(** A dict is the list of its items in insertion order, keys distinct.  A
    float is kept as the text [repr] prints for it. *)
Inductive json :=
| JNull
| JBool (b : bool)
| JInt (z : Z)
| JFloat (repr : string)
| JStr (s : string)
| JArr (l : list json)
| JObj (items : list (string * json)).

Definition type_name (v : json) : string :=
  match v with
  | JNull => "NoneType"
  | JBool _ => "bool"
  | JInt _ => "int"
  | JFloat _ => "float"
  | JStr _ => "str"
  | JArr _ => "list"
  | JObj _ => "dict"
  end.

Fixpoint assoc (k : string) (items : list (string * json)) : option json :=
  match items with
  | [] => None
  | (k', v) :: rest => if String.eqb k k' then Some v else assoc k rest
  end.

(** [v[k]] for a string key. *)
Definition subscript (v : json) (k : string) : Py.exc json :=
  match v with
  | JObj items =>
      match assoc k items with
      | Some x => Py.Ret x
      | None => Py.Raise (Py.Exn "KeyError" ("'" ++ k ++ "'"))
      end
  | JArr _ =>
      Py.Raise (Py.Exn "TypeError" "list indices must be integers or slices, not str")
  | JStr _ =>
      Py.Raise (Py.Exn "TypeError" "string indices must be integers, not 'str'")
  | _ =>
      Py.Raise (Py.Exn "TypeError"
                  ("'" ++ type_name v ++ "' object is not subscriptable"))
  end.

(** [v.get(k)] *)
Definition get (v : json) (k : string) : Py.exc (option json) :=
  match v with
  | JObj items => Py.Ret (assoc k items)
  | _ =>
      Py.Raise (Py.Exn "AttributeError"
                  ("'" ++ type_name v ++ "' object has no attribute 'get'"))
  end.

(** The truth value of an object in a condition. *)
Definition truthy (v : json) : bool :=
  match v with
  | JNull => false
  | JBool b => b
  | JInt z => negb (z =? 0)
  | JFloat r => negb (String.eqb r "0.0" || String.eqb r "-0.0")
  | JStr s => negb (String.eqb s "")
  | JArr l => match l with [] => false | _ => true end
  | JObj items => match items with [] => false | _ => true end
  end.

(** [v != s] for a string [s]. *)
Definition differs_from_str (v : json) (s : string) : bool :=
  match v with
  | JStr s' => negb (String.eqb s' s)
  | _ => true
  end.

End Json.

(** ** Licensing (license_manager.py, license_validator.py) *)

Module License.
Import Json.

(** The standard-library calls of the two modules.  Text and bytes are both
    strings here, so [encode] and [decode] are checks that return their
    argument or raise. *)
Record pylib := {
  str_encode : string -> Py.exc string;         (* s.encode() *)
  bytes_decode : string -> Py.exc string;       (* b.decode() *)
  b64encode : string -> string;                 (* base64.b64encode *)
  b64decode : string -> Py.exc string;          (* base64.b64decode *)
  json_loads : string -> Py.exc json;           (* json.loads *)
  json_dumps : bool -> json -> string;          (* json.dumps(_, sort_keys=) *)
  hmac_sha256_hex : string -> string -> string; (* hmac.new(k, m, sha256).hexdigest() *)
  sha256_hex : string -> string;                (* hashlib.sha256(m).hexdigest() *)
  isoformat : Z -> string;                      (* naive datetime.isoformat() *)
  fromisoformat : string -> Py.exc Py.datetime; (* datetime.fromisoformat *)
  str_of_int : Z -> string                      (* str(n) *)
}.

(** What [get_machine_id] reads from the host. *)
Record host := {
  hostname : string;   (* socket.gethostname() *)
  system : string;     (* platform.system() *)
  machine : string;    (* platform.machine() *)
  mac : Z              (* uuid.getnode() *)
}.

Definition license_secret : string := "JTV-2025-SECRET-KEY-DO-NOT-SHARE".
Definition trial_days : Z := 14.

(** Naive datetimes count microseconds from 0001-01-01T00:00:00; the last
    representable one is 9999-12-31T23:59:59.999999. *)
Definition datetime_max : Z := 3652059 * Py.day_us - 1.

(** [now + timedelta(days=days)] *)
Definition add_days (now days : Z) : Py.exc Z :=
  if 999999999 <? Z.abs days then
    Py.Raise (Py.Exn "OverflowError" "days; must have magnitude <= 999999999")
  else
    let t := now + days * Py.day_us in
    if (t <? 0) || (datetime_max <? t) then
      Py.Raise (Py.Exn "OverflowError" "date value out of range")
    else Py.Ret t.

Fixpoint is_ascii (s : string) : bool :=
  match s with
  | EmptyString => true
  | String c s' => (N_of_ascii c <? 128)%N && is_ascii s'
  end.

(** [hmac.compare_digest(a, b)] with [b] a string. *)
Definition compare_digest (a : json) (b : string) : Py.exc bool :=
  match a with
  | JStr s =>
      if is_ascii s && is_ascii b then Py.Ret (String.eqb s b)
      else Py.Raise (Py.Exn "TypeError"
                       "comparing strings with non-ASCII characters is not supported")
  | _ =>
      Py.Raise (Py.Exn "TypeError"
                  ("unsupported operand types(s) or combination of types: '"
                   ++ type_name a ++ "' and 'str'"))
  end.

(** [s[:n]] *)
Fixpoint take (n : nat) (s : string) : string :=
  match n, s with
  | S n', String c s' => String c (take n' s')
  | _, _ => ""
  end.

Definition feature_table (export_data api_access priority_support : bool)
    (max_users : Z) : json :=
  JObj [("create_tickets", JBool true); ("comment_tickets", JBool true);
        ("assign_tickets", JBool true); ("search_tickets", JBool true);
        ("export_data", JBool export_data); ("api_access", JBool api_access);
        ("priority_support", JBool priority_support);
        ("max_users", JInt max_users)].

(** [get_license_features] *)
Definition get_license_features (license_type : string) : json :=
  let features :=
    [("trial", feature_table false false false 1);
     ("standard", feature_table true true false 5);
     ("premium", feature_table true true true (-1))] in
  match assoc license_type features with
  | Some f => f
  | None => feature_table false false false 1
  end.

(** The two dicts [validate_license_key] returns. *)
Definition invalid (error : string) : json :=
  JObj [("valid", JBool false); ("error", JStr error)].

Definition valid (data : json) (days_remaining : Z) : json :=
  JObj [("valid", JBool true); ("data", data);
        ("days_remaining", JInt days_remaining)].

Section WithLibrary.

Variable L : pylib.
Variable H : host.

(** [get_machine_id] *)
Definition get_machine_id : Py.exc string :=
  let machine_string :=
    hostname H ++ "-" ++ system H ++ "-" ++ machine H ++ "-"
    ++ str_of_int L (mac H) in
  try! encoded := str_encode L machine_string in
  Py.Ret (take 16 (sha256_hex L encoded)).

(** The signature of a data dict: HMAC-SHA256 of its sorted-key dump. *)
Definition sign (data : json) : Py.exc string :=
  let data_string := json_dumps L true data in
  try! key := str_encode L license_secret in
  try! msg := str_encode L data_string in
  Py.Ret (hmac_sha256_hex L key msg).

(** The dicts [generate_license_key] builds. *)
Definition license_data (user_email license_type : string) (expiry_date : Z)
    (machine_id : string) : json :=
  JObj [("email", JStr user_email);
        ("type", JStr license_type);
        ("expires", JStr (isoformat L expiry_date));
        ("machine_id", JStr machine_id);
        ("version", JStr "1.0");
        ("features", get_license_features license_type)].

Definition license_payload (data : json) (signature : string) : json :=
  JObj [("data", data); ("signature", JStr signature)].

(** license_manager.py, [generate_license_key]; [now] is the reading of
    [datetime.now()]. *)
Definition generate_license_key (now : Z) (user_email license_type : string)
    (days_valid : Z) : Py.exc string :=
  try! expiry_date := add_days now days_valid in
  try! machine_id := get_machine_id in
  let data := license_data user_email license_type expiry_date machine_id in
  try! signature := sign data in
  let license_json := json_dumps L false (license_payload data signature) in
  try! encoded := str_encode L license_json in
  bytes_decode L (b64encode L encoded).

(** The first two statements of [validate_license_key]: the payload the key
    decodes to. *)
Definition load_payload (license_key : string) : Py.exc json :=
  try! key_bytes := str_encode L license_key in
  try! decoded := b64decode L key_bytes in
  try! license_json := bytes_decode L decoded in
  json_loads L license_json.

(** The statements up to the signature test: the payload's data and
    whether the signature matches. *)
Definition decode_and_verify (license_key : string) : Py.exc (json * bool) :=
  try! license_payload := load_payload license_key in
  try! data := subscript license_payload "data" in
  try! signature := subscript license_payload "signature" in
  try! expected_signature := sign data in
  try! same := compare_digest signature expected_signature in
  Py.Ret (data, same).

(** [datetime.fromisoformat(data["expires"])] *)
Definition expiry_of (data : json) : Py.exc Py.datetime :=
  try! expires := subscript data "expires" in
  match expires with
  | JStr s => fromisoformat L s
  | _ => Py.Raise (Py.Exn "TypeError" "fromisoformat: argument must be str")
  end.

(** [(expiry_date - datetime.now()).days] *)
Definition days_remaining (expiry_date : Py.datetime) (now : Z) : Py.exc Z :=
  try! delta := Py.dt_sub expiry_date (Py.Naive now) in
  Py.Ret (delta / Py.day_us).

(** The [except Exception as e] clause. *)
Definition caught (body : Py.exc json) : json :=
  match body with
  | Py.Ret result => result
  | Py.Raise e => invalid ("License validation error: " ++ Py.exn_msg e)
  end.

(** license_validator.py, [LicenseValidator.validate_license_key]: the body
    of the [try], then the method.  [now1] and [now2] are the two readings
    of [datetime.now()], in program order. *)
Definition validator_try (now1 now2 : Z) (license_key : string) : Py.exc json :=
  try! checked := decode_and_verify license_key in
  let (data, same) := (checked : json * bool) in
  if negb same then Py.Ret (invalid "Invalid license signature")
  else
    try! expiry_date := expiry_of data in
    try! expired := Py.dt_gt (Py.Naive now1) expiry_date in
    if (expired : bool) then Py.Ret (invalid "License expired")
    else
      (* the machine-id test is commented out in this module *)
      try! days := days_remaining expiry_date now2 in
      Py.Ret (valid data days).

Definition validator_validate_license_key (now1 now2 : Z) (license_key : string) : json :=
  caught (validator_try now1 now2 license_key).

(** license_manager.py, [LicenseManager.validate_license_key]. *)
Definition manager_try (now1 now2 : Z) (license_key : string) : Py.exc json :=
  try! checked := decode_and_verify license_key in
  let (data, same) := (checked : json * bool) in
  if negb same then Py.Ret (invalid "Invalid license signature")
  else
    try! expiry_date := expiry_of data in
    try! expired := Py.dt_gt (Py.Naive now1) expiry_date in
    if (expired : bool) then Py.Ret (invalid "License expired")
    else
      try! current_machine_id := get_machine_id in
      try! recorded := get data "machine_id" in
      let bound :=
        match recorded with
        | Some m => truthy m && differs_from_str m current_machine_id
        | None => false
        end in
      if bound then Py.Ret (invalid "License not valid for this machine")
      else
        try! days := days_remaining expiry_date now2 in
        Py.Ret (valid data days).

Definition manager_validate_license_key (now1 now2 : Z) (license_key : string) : json :=
  caught (manager_try now1 now2 license_key).

End WithLibrary.

End License.

(** ** The standard-library functions, as CPython 3.11 computes them

    The licensing properties that hold for every library are stated over
    [License.pylib]; the definitions of this module give one library to
    evaluate on concrete keys. *)

Module CPython.
Import Json.

(** *** Bytes *)

Fixpoint bytes_of (s : string) : list Z :=
  match s with
  | EmptyString => []
  | String c s' => Z.of_N (N_of_ascii c) :: bytes_of s'
  end.

Fixpoint of_bytes (l : list Z) : string :=
  match l with
  | [] => EmptyString
  | b :: l' => String (ascii_of_N (Z.to_N b)) (of_bytes l')
  end.

Definition hex_digit (n : Z) : ascii :=
  ascii_of_N (Z.to_N (if n <? 10 then 48 + n else 87 + n)).

Fixpoint hex_of_bytes (l : list Z) : string :=
  match l with
  | [] => ""
  | b :: l' => String (hex_digit (b / 16)) (String (hex_digit (b mod 16)) (hex_of_bytes l'))
  end.

(** *** SHA-256 (FIPS 180-4) and HMAC (RFC 2104) *)

Module Sha256.

Definition mask : Z := 4294967295.
Definition add32 (a b : Z) : Z := Z.land (a + b) mask.
Definition rotr (n x : Z) : Z :=
  Z.land (Z.lor (Z.shiftr x n) (Z.shiftl x (32 - n))) mask.
Definition ch (x y z : Z) : Z :=
  Z.lxor (Z.land x y) (Z.land (Z.lxor x mask) z).
Definition maj (x y z : Z) : Z :=
  Z.lxor (Z.lxor (Z.land x y) (Z.land x z)) (Z.land y z).
Definition bsig0 (x : Z) : Z := Z.lxor (Z.lxor (rotr 2 x) (rotr 13 x)) (rotr 22 x).
Definition bsig1 (x : Z) : Z := Z.lxor (Z.lxor (rotr 6 x) (rotr 11 x)) (rotr 25 x).
Definition ssig0 (x : Z) : Z := Z.lxor (Z.lxor (rotr 7 x) (rotr 18 x)) (Z.shiftr x 3).
Definition ssig1 (x : Z) : Z := Z.lxor (Z.lxor (rotr 17 x) (rotr 19 x)) (Z.shiftr x 10).

Definition K : list Z :=
  [1116352408; 1899447441; 3049323471; 3921009573; 961987163; 1508970993;
   2453635748; 2870763221; 3624381080; 310598401; 607225278; 1426881987;
   1925078388; 2162078206; 2614888103; 3248222580; 3835390401; 4022224774;
   264347078; 604807628; 770255983; 1249150122; 1555081692; 1996064986;
   2554220882; 2821834349; 2952996808; 3210313671; 3336571891; 3584528711;
   113926993; 338241895; 666307205; 773529912; 1294757372; 1396182291;
   1695183700; 1986661051; 2177026350; 2456956037; 2730485921; 2820302411;
   3259730800; 3345764771; 3516065817; 3600352804; 4094571909; 275423344;
   430227734; 506948616; 659060556; 883997877; 958139571; 1322822218;
   1537002063; 1747873779; 1955562222; 2024104815; 2227730452; 2361852424;
   2428436474; 2756734187; 3204031479; 3329325298].

Definition H0 : list Z :=
  [1779033703; 3144134277; 1013904242; 2773480762; 1359893119; 2600822924;
   528734635; 1541459225].

(** Big-endian words of a block of bytes. *)
Fixpoint words (bytes : list Z) : list Z :=
  match bytes with
  | a :: b :: c :: d :: rest =>
      (a * 16777216 + b * 65536 + c * 256 + d) :: words rest
  | _ => []
  end.

(** The message schedule, most recent word first. *)
Fixpoint schedule (n : nat) (rev_w : list Z) : list Z :=
  match n with
  | O => rev_w
  | S n' =>
      let w :=
        add32 (add32 (ssig1 (nth 1 rev_w 0)) (nth 6 rev_w 0))
              (add32 (ssig0 (nth 14 rev_w 0)) (nth 15 rev_w 0)) in
      schedule n' (w :: rev_w)
  end.

Definition round (st : list Z) (kw : Z * Z) : list Z :=
  match st with
  | [a; b; c; d; e; f; g; h] =>
      let t1 := add32 (add32 (add32 h (bsig1 e)) (add32 (ch e f g) (fst kw))) (snd kw) in
      let t2 := add32 (bsig0 a) (maj a b c) in
      [add32 t1 t2; a; b; c; add32 d t1; e; f; g]
  | _ => st
  end.

Fixpoint add_words (x y : list Z) : list Z :=
  match x, y with
  | a :: x', b :: y' => add32 a b :: add_words x' y'
  | _, _ => []
  end.

Definition compress (st : list Z) (block : list Z) : list Z :=
  let w := rev (schedule 48 (rev (words block))) in
  add_words st (fold_left round (combine K w) st).

Fixpoint blocks (n : nat) (st : list Z) (bytes : list Z) : list Z :=
  match n with
  | O => st
  | S n' => blocks n' (compress st (firstn 64 bytes)) (skipn 64 bytes)
  end.

Definition be_bytes (n : nat) (x : Z) : list Z :=
  map (fun i => (x / 256 ^ Z.of_nat i) mod 256) (rev (seq 0 n)).

Definition pad (msg : list Z) : list Z :=
  let len := Z.of_nat (List.length msg) in
  let zeros := Z.to_nat ((55 - len) mod 64) in
  (msg ++ 128 :: repeat 0 zeros ++ be_bytes 8 (8 * len))%list.

Definition digest (msg : list Z) : list Z :=
  let padded := pad msg in
  flat_map (be_bytes 4) (blocks (List.length padded / 64) H0 padded).

Definition hmac (key msg : list Z) : list Z :=
  let key := if (64 <? Z.of_nat (List.length key)) then digest key else key in
  let key := (key ++ repeat 0 (64 - List.length key))%list in
  let ikey := map (Z.lxor 54) key in
  let okey := map (Z.lxor 92) key in
  digest (okey ++ digest (ikey ++ msg))%list.

End Sha256.

Definition sha256_hex (m : string) : string :=
  hex_of_bytes (Sha256.digest (bytes_of m)).

Definition hmac_sha256_hex (k m : string) : string :=
  hex_of_bytes (Sha256.hmac (bytes_of k) (bytes_of m)).

(** *** base64 (binascii.b2a_base64 / a2b_base64, not strict) *)

Definition b64_char (n : Z) : Z :=
  if n <? 26 then 65 + n
  else if n <? 52 then 71 + n
  else if n <? 62 then n - 4
  else if n =? 62 then 43 else 47.

(** The value of an alphabet character. *)
Definition b64_value (c : Z) : option Z :=
  if (65 <=? c) && (c <=? 90) then Some (c - 65)
  else if (97 <=? c) && (c <=? 122) then Some (c - 71)
  else if (48 <=? c) && (c <=? 57) then Some (c + 4)
  else if c =? 43 then Some 62
  else if c =? 47 then Some 63
  else None.

Fixpoint b2a (bytes : list Z) : list Z :=
  match bytes with
  | [] => []
  | [a] => [b64_char (a / 4); b64_char (a mod 4 * 16); 61; 61]
  | [a; b] =>
      [b64_char (a / 4); b64_char (a mod 4 * 16 + b / 16);
       b64_char (b mod 16 * 4); 61]
  | a :: b :: c :: rest =>
      b64_char (a / 4) :: b64_char (a mod 4 * 16 + b / 16)
      :: b64_char (b mod 16 * 4 + c / 64) :: b64_char (c mod 64) :: b2a rest
  end.

Definition b64encode (s : string) : string := of_bytes (b2a (bytes_of s)).

(** The decoding loop: characters outside the alphabet are skipped, a pad
    that completes a group ends the decoding, and what is left of an
    incomplete group at the end is an error. *)
Fixpoint a2b (chars : list Z) (quad_pos leftchar pads : Z) (out : list Z)
  : Py.exc (list Z) :=
  match chars with
  | [] =>
      if quad_pos =? 0 then Py.Ret (rev out)
      else if quad_pos =? 1 then
        Py.Raise (Py.Exn "binascii.Error"
          "Invalid base64-encoded string: number of data characters cannot be 1 more than a multiple of 4")
      else Py.Raise (Py.Exn "binascii.Error" "Incorrect padding")
  | c :: rest =>
      if c =? 61 then
        if 2 <=? quad_pos then
          if 4 <=? quad_pos + (pads + 1) then Py.Ret (rev out)
          else a2b rest quad_pos leftchar (pads + 1) out
        else a2b rest quad_pos leftchar pads out
      else
        match b64_value c with
        | None => a2b rest quad_pos leftchar pads out
        | Some v =>
            if quad_pos =? 0 then a2b rest 1 v 0 out
            else if quad_pos =? 1 then
              a2b rest 2 (v mod 16) 0 ((leftchar * 4 + v / 16) :: out)
            else if quad_pos =? 2 then
              a2b rest 3 (v mod 4) 0 ((leftchar * 16 + v / 4) :: out)
            else a2b rest 0 0 0 ((leftchar * 64 + v) :: out)
        end
  end.

Definition b64decode (s : string) : Py.exc string :=
  try! bytes := a2b (bytes_of s) 0 0 0 [] in Py.Ret (of_bytes bytes).

(** *** UTF-8 *)

Definition continuation (b : Z) : bool := (128 <=? b) && (b <=? 191).

(** The length of the well-formed sequence at the head of the bytes, 0 when
    there is none.  Sequences for surrogates count as well formed only when
    [surrogates] is set. *)
Definition utf8_head (surrogates : bool) (bytes : list Z) : nat :=
  match bytes with
  | [] => 0
  | a :: rest =>
      if a <? 128 then 1
      else if (194 <=? a) && (a <=? 223) then
        match rest with
        | b :: _ => if continuation b then 2 else 0
        | _ => 0
        end
      else if (224 <=? a) && (a <=? 239) then
        match rest with
        | b :: c :: _ =>
            if continuation b && continuation c
               && negb ((a =? 224) && (b <? 160))
               && (surrogates || negb ((a =? 237) && (160 <=? b)))
            then 3 else 0
        | _ => 0
        end
      else if (240 <=? a) && (a <=? 244) then
        match rest with
        | b :: c :: d :: _ =>
            if continuation b && continuation c && continuation d
               && negb ((a =? 240) && (b <? 144))
               && negb ((a =? 244) && (144 <=? b))
            then 4 else 0
        | _ => 0
        end
      else 0
  end.

Fixpoint utf8_valid (fuel : nat) (surrogates : bool) (bytes : list Z) : bool :=
  match fuel with
  | O => match bytes with [] => true | _ => false end
  | S fuel' =>
      match bytes with
      | [] => true
      | _ =>
          match utf8_head surrogates bytes with
          | O => false
          | n => utf8_valid fuel' surrogates (skipn n bytes)
          end
      end
  end.

(** [b.decode()] *)
Definition bytes_decode (b : string) : Py.exc string :=
  if utf8_valid (String.length b) false (bytes_of b) then Py.Ret b
  else Py.Raise (Py.Exn "UnicodeDecodeError" "'utf-8' codec can't decode bytes: invalid data").

(** [s.encode()]: a text with a lone surrogate cannot be encoded. *)
Definition str_encode (s : string) : Py.exc string :=
  if utf8_valid (String.length s) false (bytes_of s) then Py.Ret s
  else Py.Raise (Py.Exn "UnicodeEncodeError"
                   "'utf-8' codec can't encode character: surrogates not allowed").

(** *** str(int) *)

Definition str_of_int (z : Z) : string := NilZero.string_of_int (Z.to_int z).

(** *** json.dumps (default separators, ensure_ascii) *)

Definition dquote : ascii := "034"%char.
Definition backslash : ascii := "092"%char.

(** A backslash escape: the backslash and the text after it. *)
Definition esc (s : string) : string := String backslash s.

Definition hex4 (n : Z) : string :=
  String (hex_digit (n / 4096 mod 16)) (String (hex_digit (n / 256 mod 16))
    (String (hex_digit (n / 16 mod 16)) (String (hex_digit (n mod 16)) ""))).

(** The code point at the head of the bytes of a text and the number of
    bytes it takes; a byte that starts no sequence stands for itself. *)
Definition code_point (bytes : list Z) : Z * nat :=
  match utf8_head true bytes, bytes with
  | 2%nat, a :: b :: _ => ((a mod 32) * 64 + b mod 64, 2%nat)
  | 3%nat, a :: b :: c :: _ => ((a mod 16) * 4096 + (b mod 64) * 64 + c mod 64, 3%nat)
  | 4%nat, a :: b :: c :: d :: _ =>
      ((a mod 8) * 262144 + (b mod 64) * 4096 + (c mod 64) * 64 + d mod 64, 4%nat)
  | _, a :: _ => (a, 1%nat)
  | _, [] => (0, 1%nat)
  end.

Definition escape_code_point (cp : Z) : string :=
  if cp =? 34 then esc (String dquote "")
  else if cp =? 92 then esc (String backslash "")
  else if cp =? 10 then esc "n"
  else if cp =? 13 then esc "r"
  else if cp =? 9 then esc "t"
  else if cp =? 8 then esc "b"
  else if cp =? 12 then esc "f"
  else if (32 <=? cp) && (cp <=? 126) then String (ascii_of_N (Z.to_N cp)) ""
  else if cp <? 65536 then esc "u" ++ hex4 cp
  else
    let v := cp - 65536 in
    esc "u" ++ hex4 (55296 + v / 1024) ++ esc "u" ++ hex4 (56320 + v mod 1024).

Fixpoint escape (fuel : nat) (bytes : list Z) : string :=
  match fuel, bytes with
  | S fuel', _ :: _ =>
      let (cp, n) := code_point bytes in
      escape_code_point cp ++ escape fuel' (skipn n bytes)
  | _, _ => ""
  end.

Definition quote (s : string) : string :=
  String dquote (escape (String.length s) (bytes_of s) ++ String dquote "").

(** Insertion of a rendered item by key order, for [sort_keys]. *)
Fixpoint insert_item (kv : string * string) (l : list (string * string))
  : list (string * string) :=
  match l with
  | [] => [kv]
  | kv' :: l' =>
      if String.leb (fst kv) (fst kv') then kv :: l else kv' :: insert_item kv l'
  end.

Definition sort_items (l : list (string * string)) : list (string * string) :=
  fold_right insert_item [] l.

Fixpoint json_dumps (sort_keys : bool) (v : json) : string :=
  match v with
  | JNull => "null"
  | JBool true => "true"
  | JBool false => "false"
  | JInt z => str_of_int z
  | JFloat r =>
      if String.eqb r "nan" then "NaN"
      else if String.eqb r "inf" then "Infinity"
      else if String.eqb r "-inf" then "-Infinity"
      else r
  | JStr s => quote s
  | JArr l => "[" ++ Py.join ", " (map (json_dumps sort_keys) l) ++ "]"
  | JObj items =>
      let rendered := map (fun kv => (fst kv, json_dumps sort_keys (snd kv))) items in
      let ordered := if sort_keys then sort_items rendered else rendered in
      "{" ++ Py.join ", " (map (fun kv => quote (fst kv) ++ ": " ++ snd kv) ordered)
      ++ "}"
  end.

(** *** json.loads (the C scanner) *)

(** A parse either succeeds with the text that follows, or fails at a
    position (given as the text from there on) or with another exception. *)
Inductive parsed (A : Type) :=
| POk (a : A) (rest : string)
| PErr (msg : string) (at_rest : string)
| PExn (e : Py.exn).
Arguments POk {A} a rest.
Arguments PErr {A} msg at_rest.
Arguments PExn {A} e.

Definition json_space (c : ascii) : bool :=
  let n := N_of_ascii c in ((n =? 32) || (n =? 9) || (n =? 10) || (n =? 13))%N.

Fixpoint skip_ws (s : string) : string :=
  match s with
  | String c s' => if json_space c then skip_ws s' else s
  | EmptyString => s
  end.

Definition hex_value (c : ascii) : option Z :=
  let n := Z.of_N (N_of_ascii c) in
  if (48 <=? n) && (n <=? 57) then Some (n - 48)
  else if (97 <=? n) && (n <=? 102) then Some (n - 87)
  else if (65 <=? n) && (n <=? 70) then Some (n - 55)
  else None.

(** The value of four hex digits at the head of the text. *)
Definition hex4_value (s : string) : option (Z * string) :=
  match s with
  | String a (String b (String c (String d rest))) =>
      match hex_value a, hex_value b, hex_value c, hex_value d with
      | Some x, Some y, Some z, Some w => Some (x * 4096 + y * 256 + z * 16 + w, rest)
      | _, _, _, _ => None
      end
  | _ => None
  end.

(** The bytes of a code point (surrogates included). *)
Definition utf8_of (cp : Z) : string :=
  of_bytes
    (if cp <? 128 then [cp]
     else if cp <? 2048 then [192 + cp / 64; 128 + cp mod 64]
     else if cp <? 65536 then
       [224 + cp / 4096; 128 + cp / 64 mod 64; 128 + cp mod 64]
     else [240 + cp / 262144; 128 + cp / 4096 mod 64; 128 + cp / 64 mod 64;
           128 + cp mod 64]).

Definition simple_escape (c : ascii) : option ascii :=
  if Ascii.eqb c dquote then Some dquote
  else if Ascii.eqb c backslash then Some backslash
  else
    match c with
    | "/"%char => Some "/"%char
    | "b"%char => Some "008"%char
    | "f"%char => Some "012"%char
    | "n"%char => Some "010"%char
    | "r"%char => Some "013"%char
    | "t"%char => Some "009"%char
    | _ => None
    end.

Definition cons_parsed (prefix : string) (p : parsed string) : parsed string :=
  match p with
  | POk s rest => POk (prefix ++ s) rest
  | e => e
  end.

Definition bad_escape : string := "Invalid " ++ esc "escape".
Definition bad_unicode_escape : string := "Invalid " ++ esc "uXXXX escape".

(** [scanstring] after the opening quote; [opening] is the text from that
    quote on. *)
Fixpoint scan_string (opening s : string) : parsed string :=
  match s with
  | EmptyString => PErr "Unterminated string starting at" opening
  | String c r =>
      if Ascii.eqb c dquote then POk "" r
      else if Ascii.eqb c backslash then
        match r with
        | EmptyString => PErr "Unterminated string starting at" opening
        | String e r2 =>
            if Ascii.eqb e "u" then
              match r2 with
              | String h1 (String h2 (String h3 (String h4 r6))) =>
                  match hex4_value r2, r6 with
                  | None, _ | _, EmptyString => PErr bad_unicode_escape r
                  | Some (hi, _), _ =>
                      let lone := cons_parsed (utf8_of hi) (scan_string opening r6) in
                      if (55296 <=? hi) && (hi <=? 56319) then
                        match r6 with
                        | String b1 (String b2 (String l1 (String l2 (String l3
                            (String l4 r12))))) =>
                            if Ascii.eqb b1 backslash && Ascii.eqb b2 "u"
                               && negb (String.eqb r12 "") then
                              match hex4_value (String l1 (String l2 (String l3
                                      (String l4 "")))) with
                              | Some (lo, _) =>
                                  if (56320 <=? lo) && (lo <=? 57343) then
                                    cons_parsed
                                      (utf8_of (65536 + (hi - 55296) * 1024 + (lo - 56320)))
                                      (scan_string opening r12)
                                  else lone
                              | None => lone
                              end
                            else lone
                        | _ => lone
                        end
                      else lone
                  end
              | _ => PErr bad_unicode_escape r
              end
            else
              match simple_escape e with
              | Some ch => cons_parsed (String ch "") (scan_string opening r2)
              | None => PErr bad_escape s
              end
        end
      else if (N_of_ascii c <? 32)%N then PErr "Invalid control character at" s
      else cons_parsed (String c "") (scan_string opening r)
  end.

Fixpoint digits_of (s : string) : string * string :=
  match s with
  | String c s' =>
      if ((48 <=? N_of_ascii c) && (N_of_ascii c <=? 57))%N
      then let (d, r) := digits_of s' in (String c d, r)
      else ("", s)
  | EmptyString => ("", "")
  end.

Fixpoint int_of_digits (acc : Z) (s : string) : Z :=
  match s with
  | String c s' => int_of_digits (acc * 10 + (Z.of_N (N_of_ascii c) - 48)) s'
  | EmptyString => acc
  end.

(** A number at the head of the text: integer part, then a fraction and an
    exponent where they are complete.  [None] when no number starts here. *)
Definition scan_number (s : string) : option (parsed json) :=
  let (sign, s1) :=
    match s with
    | String "-"%char r => ("-", r)
    | _ => ("", s)
    end in
  let int_part :=
    match s1 with
    | String "0"%char r => Some ("0", r)
    | String c _ =>
        if ((49 <=? N_of_ascii c) && (N_of_ascii c <=? 57))%N
        then Some (digits_of s1) else None
    | EmptyString => None
    end in
  match int_part with
  | None => None
  | Some (digits, r) =>
      let (frac, r1) :=
        match r with
        | String "."%char r' =>
            match digits_of r' with
            | (EmptyString, _) => ("", r)
            | (d, r'') => ("." ++ d, r'')
            end
        | _ => ("", r)
        end in
      let (exp, r2) :=
        match r1 with
        | String e r' =>
            if Ascii.eqb e "e" || Ascii.eqb e "E" then
              let (esign, r'') :=
                match r' with
                | String "+"%char t => ("+", t)
                | String "-"%char t => ("-", t)
                | _ => ("", r')
                end in
              match digits_of r'' with
              | (EmptyString, _) => ("", r1)
              | (d, t) => (String e esign ++ d, t)
              end
            else ("", r1)
        | EmptyString => ("", r1)
        end in
      if String.eqb frac "" && String.eqb exp "" then
        if (4300 <? String.length digits)%nat then
          Some (PExn (Py.Exn "ValueError"
            ("Exceeds the limit (4300 digits) for integer string conversion: value has "
             ++ str_of_int (Z.of_nat (String.length digits))
             ++ " digits; use sys.set_int_max_str_digits() to increase the limit")))
        else
          Some (POk (JInt (if String.eqb sign "-" then - int_of_digits 0 digits
                           else int_of_digits 0 digits)) r2)
      else Some (POk (JFloat (sign ++ digits ++ frac ++ exp)) r2)
  end.

(** [d[k] = v] on the item list of a dict. *)
Fixpoint set_item (k : string) (v : json) (items : list (string * json))
  : list (string * json) :=
  match items with
  | [] => [(k, v)]
  | (k', v') :: rest =>
      if String.eqb k k' then (k, v) :: rest else (k', v') :: set_item k v rest
  end.

Definition literal (lit : string) (v : json) (s : string) : parsed json :=
  match Py.strip_prefix lit s with
  | Some rest => POk v rest
  | None => PErr "Expecting value" s
  end.

(** [scan_once].  Every nested value and every further item takes a unit of
    fuel; a text of n characters needs at most n+1. *)
Fixpoint scan_once (fuel : nat) (s : string) : parsed json :=
  match fuel with
  | O => PExn (Py.Exn "RecursionError" "maximum recursion depth exceeded")
  | S fuel' =>
      match s with
      | EmptyString => PErr "Expecting value" s
      | String c r =>
          if Ascii.eqb c dquote then
            match scan_string s r with
            | POk str rest => POk (JStr str) rest
            | PErr m a => PErr m a
            | PExn e => PExn e
            end
          else if Ascii.eqb c "{" then
            let fix members (n : nat) (items : list (string * json)) (s : string)
              : parsed json :=
              match n with
              | O => PExn (Py.Exn "RecursionError" "maximum recursion depth exceeded")
              | S n' =>
                  match s with
                  | String q after_quote =>
                      if negb (Ascii.eqb q dquote) then
                        PErr "Expecting property name enclosed in double quotes" s
                      else
                      match scan_string s after_quote with
                      | POk k rest =>
                          match skip_ws rest with
                          | String ":"%char rest1 =>
                              match scan_once fuel' (skip_ws rest1) with
                              | POk v rest2 =>
                                  let items := set_item k v items in
                                  match skip_ws rest2 with
                                  | String "}"%char rest3 => POk (JObj items) rest3
                                  | String ","%char rest3 => members n' items (skip_ws rest3)
                                  | other => PErr "Expecting ',' delimiter" other
                                  end
                              | e => e
                              end
                          | other => PErr "Expecting ':' delimiter" other
                          end
                      | PErr m a => PErr m a
                      | PExn e => PExn e
                      end
                  | EmptyString =>
                      PErr "Expecting property name enclosed in double quotes" s
                  end
              end in
            match skip_ws r with
            | String "}"%char rest => POk (JObj []) rest
            | first => members fuel' [] first
            end
          else if Ascii.eqb c "[" then
            let fix elements (n : nat) (acc : list json) (s : string) : parsed json :=
              match n with
              | O => PExn (Py.Exn "RecursionError" "maximum recursion depth exceeded")
              | S n' =>
                  match scan_once fuel' s with
                  | POk v rest =>
                      match skip_ws rest with
                      | String "]"%char rest1 => POk (JArr (rev (v :: acc))) rest1
                      | String ","%char rest1 => elements n' (v :: acc) (skip_ws rest1)
                      | other => PErr "Expecting ',' delimiter" other
                      end
                  | e => e
                  end
              end in
            match skip_ws r with
            | String "]"%char rest => POk (JArr []) rest
            | first => elements fuel' [] first
            end
          else if Ascii.eqb c "n" then literal "null" JNull s
          else if Ascii.eqb c "t" then literal "true" (JBool true) s
          else if Ascii.eqb c "f" then literal "false" (JBool false) s
          else if Ascii.eqb c "N" then literal "NaN" (JFloat "nan") s
          else if Ascii.eqb c "I" then literal "Infinity" (JFloat "inf") s
          else
            match Py.strip_prefix "-Infinity" s with
            | Some rest => POk (JFloat "-inf") rest
            | None =>
                match scan_number s with
                | Some p => p
                | None => PErr "Expecting value" s
                end
            end
      end
  end.

(** The position part of a JSONDecodeError message: line, column and
    character index of the place where [at_rest] starts in [doc]. *)
Definition error_position (doc at_rest : string) : string :=
  let before :=
    firstn (String.length doc - String.length at_rest) (bytes_of doc) in
  let chars l := List.length (List.filter (fun b => negb (continuation b)) l) in
  let fix last_line (l cur : list Z) : list Z :=
    match l with
    | [] => cur
    | b :: l' => if b =? 10 then last_line l' [] else last_line l' (cur ++ [b])%list
    end in
  ": line "
  ++ str_of_int (Z.of_nat (S (List.length (List.filter (Z.eqb 10) before))))
  ++ " column " ++ str_of_int (Z.of_nat (S (chars (last_line before []))))
  ++ " (char " ++ str_of_int (Z.of_nat (chars before)) ++ ")".

Definition json_loads (doc : string) : Py.exc json :=
  let fail msg at_rest :=
    Py.Raise (Py.Exn "JSONDecodeError" (msg ++ error_position doc at_rest)) in
  if Py.starts_with (of_bytes [239; 187; 191]) doc then
    fail "Unexpected UTF-8 BOM (decode using utf-8-sig)" doc
  else
    match scan_once (S (String.length doc)) (skip_ws doc) with
    | POk v rest =>
        match skip_ws rest with
        | EmptyString => Py.Ret v
        | extra => fail "Extra data" extra
        end
    | PErr msg at_rest => fail msg at_rest
    | PExn e => Py.Raise e
    end.

(** *** datetime: the proleptic Gregorian calendar, isoformat, fromisoformat *)

Definition is_leap (y : Z) : bool :=
  (y mod 4 =? 0) && (negb (y mod 100 =? 0) || (y mod 400 =? 0)).

Definition days_before_year (y : Z) : Z :=
  let y := y - 1 in y * 365 + y / 4 - y / 100 + y / 400.

Definition days_in_month (y m : Z) : Z :=
  if m =? 2 then (if is_leap y then 29 else 28)
  else if (m =? 4) || (m =? 6) || (m =? 9) || (m =? 11) then 30 else 31.

Definition days_before_month (y m : Z) : Z :=
  nth (Z.to_nat m) [0; 0; 31; 59; 90; 120; 151; 181; 212; 243; 273; 304; 334] 0
  + (if (2 <? m) && is_leap y then 1 else 0).

(** Day 1 is 0001-01-01. *)
Definition ymd2ord (y m d : Z) : Z :=
  days_before_year y + days_before_month y m + d.

Definition ord2ymd (n : Z) : Z * Z * Z :=
  let n := n - 1 in
  let n400 := n / 146097 in
  let n := n mod 146097 in
  let n100 := n / 36524 in
  let n := n mod 36524 in
  let n4 := n / 1461 in
  let n := n mod 1461 in
  let n1 := n / 365 in
  let n := n mod 365 in
  let year := n400 * 400 + 1 + n100 * 100 + n4 * 4 + n1 in
  if (n1 =? 4) || (n100 =? 4) then (year - 1, 12, 31)
  else
    let leapyear := (n1 =? 3) && (negb (n4 =? 24) || (n100 =? 3)) in
    let month := (n + 50) / 32 in
    let preceding :=
      days_before_month 1 month + (if (2 <? month) && leapyear then 1 else 0) in
    if n <? preceding then
      let month := month - 1 in
      let preceding :=
        preceding - (nth (Z.to_nat month) [0; 31; 28; 31; 30; 31; 30; 31; 31; 30; 31; 30; 31] 0
                     + (if (month =? 2) && leapyear then 1 else 0)) in
      (year, month, n - preceding + 1)
    else (year, month, n - preceding + 1).

(** [z] in decimal, padded with zeros to [width] digits. *)
Definition zero_padded (width : nat) (z : Z) : string :=
  let digits := str_of_int z in
  of_bytes (repeat 48 (width - String.length digits)) ++ digits.

(** [datetime.isoformat()] of a naive datetime. *)
Definition isoformat (us : Z) : string :=
  let '(y, m, d) := ord2ymd (us / Py.day_us + 1) in
  let t := us mod Py.day_us in
  let micro := t mod Py.second_us in
  zero_padded 4 y ++ "-" ++ zero_padded 2 m ++ "-" ++ zero_padded 2 d ++ "T"
  ++ zero_padded 2 (t / Py.hour_us) ++ ":"
  ++ zero_padded 2 (t / (60 * Py.second_us) mod 60) ++ ":"
  ++ zero_padded 2 (t / Py.second_us mod 60)
  ++ (if micro =? 0 then "" else "." ++ zero_padded 6 micro).

(** Exactly [n] digits at the head of the text. *)
Fixpoint fixed_digits (n : nat) (acc : Z) (s : string) : option (Z * string) :=
  match n with
  | O => Some (acc, s)
  | S n' =>
      match s with
      | String c s' =>
          let v := Z.of_N (N_of_ascii c) in
          if (48 <=? v) && (v <=? 57) then fixed_digits n' (acc * 10 + (v - 48)) s'
          else None
      | EmptyString => None
      end
  end.

Definition expect (c : ascii) (s : string) : option string :=
  match s with
  | String c' s' => if Ascii.eqb c c' then Some s' else None
  | EmptyString => None
  end.

Definition opt_bind {A B : Type} (o : option A) (k : A -> option B) : option B :=
  match o with Some a => k a | None => None end.

(** The fields of the forms that [isoformat()] writes: a date, and after any
    one separator character a time [HH:MM:SS] with an optional fraction
    and an optional offset [Z] or [+HH:MM].  CPython 3.11 reads further
    ISO 8601 forms (basic format, week dates, shorter times), which are
    rejected here. *)
Definition iso_fields (s : string)
  : option (Z * Z * Z * (Z * Z * Z * Z) * option Z) :=
  opt_bind (fixed_digits 4 0 s) (fun '(y, s) =>
  opt_bind (expect "-" s) (fun s =>
  opt_bind (fixed_digits 2 0 s) (fun '(m, s) =>
  opt_bind (expect "-" s) (fun s =>
  opt_bind (fixed_digits 2 0 s) (fun '(d, s) =>
  match s with
  | EmptyString => Some (y, m, d, (0, 0, 0, 0), None)
  | String _ s =>
      opt_bind (fixed_digits 2 0 s) (fun '(hh, s) =>
      opt_bind (expect ":" s) (fun s =>
      opt_bind (fixed_digits 2 0 s) (fun '(mi, s) =>
      opt_bind (expect ":" s) (fun s =>
      opt_bind (fixed_digits 2 0 s) (fun '(ss, s) =>
      let (frac, s) :=
        match s with
        | String c s' =>
            if Ascii.eqb c "." || Ascii.eqb c "," then
              match digits_of s' with
              | (EmptyString, _) => (None, s)
              | (ds, rest) =>
                  let six := License.take 6 (ds ++ "000000") in
                  (Some (int_of_digits 0 six), rest)
              end
            else (Some 0, s)
        | EmptyString => (Some 0, s)
        end in
      opt_bind frac (fun us =>
      match s with
      | EmptyString => Some (y, m, d, (hh, mi, ss, us), None)
      | String c s' =>
          if String.eqb s "Z" then Some (y, m, d, (hh, mi, ss, us), Some 0)
          else if Ascii.eqb c "+" || Ascii.eqb c "-" then
            opt_bind (fixed_digits 2 0 s') (fun '(oh, s) =>
            opt_bind (expect ":" s) (fun s =>
            opt_bind (fixed_digits 2 0 s) (fun '(om, s) =>
            if String.eqb s "" then
              let off := (oh * 60 + om) * 60 * Py.second_us in
              Some (y, m, d, (hh, mi, ss, us),
                    Some (if Ascii.eqb c "-" then - off else off))
            else None)))
          else None
      end))))))
  end))))).

Definition fromisoformat (s : string) : Py.exc Py.datetime :=
  let bad msg := Py.Raise (Py.Exn "ValueError" msg) in
  match iso_fields s with
  | None => bad ("Invalid isoformat string: '" ++ s ++ "'")
  | Some (y, m, d, (hh, mi, ss, us), offset) =>
      if y =? 0 then bad "year 0 is out of range"
      else if (m <? 1) || (12 <? m) then bad "month must be in 1..12"
      else if (d <? 1) || (days_in_month y m <? d) then
        bad "day is out of range for month"
      else if 23 <? hh then bad "hour must be in 0..23"
      else if 59 <? mi then bad "minute must be in 0..59"
      else if 59 <? ss then bad "second must be in 0..59"
      else if match offset with
              | Some off => 24 * Py.hour_us <=? Z.abs off
              | None => false
              end
      then bad ("Invalid isoformat string: '" ++ s ++ "'")
      else
        let t :=
          (ymd2ord y m d - 1) * Py.day_us
          + ((hh * 60 + mi) * 60 + ss) * Py.second_us + us in
        match offset with
        | None => Py.Ret (Py.Naive t)
        | Some off => Py.Ret (Py.Aware (t - off))
        end
  end.

(** The library as a whole. *)
Definition lib : License.pylib :=
  {| License.str_encode := str_encode;
     License.bytes_decode := bytes_decode;
     License.b64encode := b64encode;
     License.b64decode := b64decode;
     License.json_loads := json_loads;
     License.json_dumps := json_dumps;
     License.hmac_sha256_hex := hmac_sha256_hex;
     License.sha256_hex := sha256_hex;
     License.isoformat := isoformat;
     License.fromisoformat := fromisoformat;
     License.str_of_int := str_of_int |}.

End CPython.

(** ** The Resolve action of the enhanced shell (JiraTicketGUI_enhanced.py) *)

Module EnhancedActions.
Import Tickets.

(** What [resolve_ticket] does once a ticket is selected. *)
Inductive action :=
| ErrorBox (msg : string)
| StatusDialog
| Post (t : transition).

(** [transitions_data] is [None] when the request gives nothing. *)
Definition resolve_ticket (transitions_data : option (list transition)) : action :=
  match transitions_data with
  | None => ErrorBox "Could not get transitions"
  | Some ts =>
      match matching ["resolve"; "done"] ts with
      | [] => StatusDialog
      | selected :: _ => Post selected
      end
  end.

End EnhancedActions.

(** ** The reminder store (reminder_manager.py): adding, completing, snoozing *)

Module ReminderStore.
Import Reminders.

(** The [due_date] argument of [add_reminder]: a naive datetime, written
    with [isoformat()], or another value, stored as it is. *)
Inductive due_argument :=
| Moment (us : Z)
| Text (s : string).

(** [now + timedelta(hours=hours)] for an integer [hours]; [None] stands for
    the OverflowError of a delta beyond 999999999 days or of a sum outside
    the years 1 to 9999. *)
Definition add_hours (now hours : Z) : option Z :=
  let delta := hours * Py.hour_us in
  if 999999999 <? Z.abs (delta / Py.day_us) then None
  else
    let t := now + delta in
    if (t <? 0) || (License.datetime_max <? t) then None else Some t.

(** What [snooze_reminder] does: it returns [found], or leaves through the
    OverflowError of the date arithmetic with the list as it was. *)
Inductive snoozed :=
| Overflow
| Snoozed (reminders : list reminder) (found : bool).

Section Store.

Variable isoformat : Z -> string.

(** [add_reminder]; [now] is the reading of [datetime.now()].  The pair is
    the list after the call and the returned reminder. *)
Definition add_reminder (now : Z) (reminders : list reminder)
    (title description : string) (due : due_argument)
    (reminder_type priority : string) : list reminder * reminder :=
  let reminder :=
    {| r_id := Z.of_nat (List.length reminders) + 1;
       Reminders.title := title;
       Reminders.description := description;
       due_date := match due with Moment us => isoformat us | Text s => s end;
       r_type := reminder_type;
       Reminders.priority := priority;
       created := isoformat now;
       completed := false;
       completed_date := None;
       snoozed_until := None |} in
  ((reminders ++ [reminder])%list, reminder).

(** [complete_reminder]: the first reminder with the id is marked. *)
Fixpoint complete_reminder (now : Z) (reminders : list reminder)
    (reminder_id : Z) : list reminder * bool :=
  match reminders with
  | [] => ([], false)
  | r :: rest =>
      if r_id r =? reminder_id then
        ({| r_id := r_id r; title := title r; description := description r;
            due_date := due_date r; r_type := r_type r; priority := priority r;
            created := created r; completed := true;
            completed_date := Some (isoformat now);
            snoozed_until := snoozed_until r |} :: rest, true)
      else
        let (rest', found) := complete_reminder now rest reminder_id in
        (r :: rest', found)
  end.

(** [snooze_reminder] *)
Fixpoint snooze_reminder (now : Z) (reminders : list reminder)
    (reminder_id hours : Z) : snoozed :=
  match reminders with
  | [] => Snoozed [] false
  | r :: rest =>
      if r_id r =? reminder_id then
        match add_hours now hours with
        | Some snooze_until =>
            Snoozed
              ({| r_id := r_id r; title := title r; description := description r;
                  due_date := due_date r; r_type := r_type r;
                  priority := priority r; created := created r;
                  completed := completed r;
                  completed_date := completed_date r;
                  snoozed_until := Some (isoformat snooze_until) |} :: rest)
              true
        | None => Overflow
        end
      else
        match snooze_reminder now rest reminder_id hours with
        | Snoozed rest' found => Snoozed (r :: rest') found
        | Overflow => Overflow
        end
  end.

End Store.

End ReminderStore.

(** * Properties *)

(** ** Facts about the string operations *)

Module PyFacts.
Import Py.



Lemma mem_true (x : string) (l : list string) : mem x l = true <-> In x l.
Proof.
  unfold mem. rewrite existsb_exists. split.
  - intros (y & Hy & E). apply String.eqb_eq in E. now subst.
  - intros H. exists x. split; [assumption | apply String.eqb_refl].
Qed.

End PyFacts.

(** ** Substrings *)

Module StringFacts.
Import Py.

Lemma append_cons (c : ascii) (a b : string) :
  String c a ++ b = String c (a ++ b).
Proof. reflexivity. Qed.

Lemma append_nil_l (a : string) : "" ++ a = a.
Proof. reflexivity. Qed.



Lemma append_assoc (a b c : string) : (a ++ b) ++ c = a ++ b ++ c.
Proof.
  induction a as [|x a IH]; [reflexivity|]. rewrite !append_cons. now rewrite IH.
Qed.

Lemma append_nil_r (a : string) : a ++ "" = a.
Proof.
  induction a as [|x a IH]; [reflexivity|]. rewrite append_cons. now rewrite IH.
Qed.




End StringFacts.

(** ** Tickets *)

Module TicketsFacts.
Import Tickets.

(** *** Hide-completed filtering *)

(** The enhanced shell's loop keeps an issue exactly when it passes the
    ownership filter and, with the toggle on and a filter other than
    "All Open", its lowered status name contains none of the completed
    substrings. *)
Lemma enhanced_hide_completed (all_tickets : list issue)
    (ticket_filter user_email : string) (i : issue) :
  ticket_filter <> "All Open" ->
  In i (Enhanced.tickets_to_show all_tickets ticket_filter true user_email) <->
  In i all_tickets
  /\ Enhanced.keeps ticket_filter false user_email i = true
  /\ status_is_completed i = false.
Proof.
  intros Hf. unfold Enhanced.tickets_to_show. rewrite filter_In.
  apply String.eqb_neq in Hf.
  unfold Enhanced.keeps, status_is_completed. rewrite Hf.
  generalize (Py.any_in completed_statuses (lowered_name (status (get_fields i)))).
  intros completed. rewrite andb_true_l, andb_false_l.
  destruct (negb _); [intuition congruence|].
  destruct completed; simpl; intuition congruence.
Qed.

(** The modular manager's loop compares the lowered status name with the six
    names for equality. *)
Lemma search_filter_hide_completed (all_tickets : list issue)
    (ticket_filter issue_type_filter user_email : string) (i : issue) :
  In i (SearchFilter.tickets_to_show all_tickets ticket_filter issue_type_filter
          true user_email) <->
  In i all_tickets
  /\ SearchFilter.keeps ticket_filter issue_type_filter false user_email i = true
  /\ ~ In (lowered_name (status (get_fields i))) completed_statuses.
Proof.
  unfold SearchFilter.tickets_to_show. rewrite filter_In.
  rewrite <- PyFacts.mem_true.
  unfold SearchFilter.keeps, lowered_name.
  destruct (negb _); [intuition congruence|].
  destruct (_ && _); [intuition congruence|].
  destruct (Py.mem _ completed_statuses); simpl; intuition congruence.
Qed.

Definition closed_wont_fix : issue :=
  {| key := Some "ITS-7";
     fields := Some {| summary := Some "Printer offline"; created := None;
                       status := Some {| name := Some "Closed - Won't Fix" |};
                       priority := None; issuetype := None;
                       reporter := None; assignee := None |} |}.

(** C3: with the hide-completed toggle on, the ticket with status
    "Closed - Won't Fix" has a lowered status name containing "closed", and
    the enhanced shell drops it, but SearchFilterManager.filter_tickets keeps
    it, because it tests membership of the whole name in the list. *)
Theorem search_filter_keeps_closed_wont_fix :
  status_is_completed closed_wont_fix = true
  /\ Enhanced.filter_tickets [closed_wont_fix] "All Tickets" true "" = Some []
  /\ SearchFilter.filter_tickets [closed_wont_fix] "All Tickets" "All" true ""
     = Some [closed_wont_fix].
Proof. repeat split; reflexivity. Qed.

(** *** SLA flag *)

Section SlaFacts.

Variable fromisoformat : string -> Py.exc Py.datetime.
Variable clk : Py.clock.

Definition with_priority (p : option named) (i : issue) : issue :=
  {| key := key i;
     fields :=
       match fields i with
       | Some f => Some {| summary := summary f; created := created f;
                           status := status f; priority := p;
                           issuetype := issuetype f; reporter := reporter f;
                           assignee := assignee f |}
       | None => None
       end |}.

(** The creation time the method works with: the [created] text is
    present, non-empty and accepted by the parser after the Z replacement. *)
Definition created_at (i : issue) (c : Py.datetime) : Prop :=
  exists s, created (get_fields i) = Some s /\ s <> ""
            /\ fromisoformat (Py.replace_char "Z" "+00:00" s) = Py.Ret c.

Lemma is_sla_missed_completed (i : issue) :
  status_is_completed i = true -> is_sla_missed fromisoformat clk i = false.
Proof.
  unfold status_is_completed, is_sla_missed. intros H. now rewrite H.
Qed.

Lemma is_sla_missed_priority (p : option named) (i : issue) :
  is_sla_missed fromisoformat clk (with_priority p i)
  = is_sla_missed fromisoformat clk i.
Proof.
  unfold is_sla_missed, with_priority, get_fields. simpl.
  destruct (fields i); reflexivity.
Qed.

(** C5: in the enhanced variant a ticket whose status contains a completed
    substring is never flagged; the flag does not depend on the priority; and
    a ticket with no completed substring in its status and a created
    timestamp is flagged exactly when more than 96 hours have elapsed. *)
Theorem is_sla_missed_flat_96h (i : issue) :
  (status_is_completed i = true -> is_sla_missed fromisoformat clk i = false)
  /\ (forall p, is_sla_missed fromisoformat clk (with_priority p i)
                = is_sla_missed fromisoformat clk i)
  /\ (forall c, status_is_completed i = false -> created_at i c ->
        (is_sla_missed fromisoformat clk i = true
         <-> 96 * Py.hour_us < elapsed_since clk c)).
Proof.
  split; [apply is_sla_missed_completed|].
  split; [intros p; apply is_sla_missed_priority|].
  intros c Hs (s & Hc & Hne & Hp).
  unfold status_is_completed in Hs. unfold is_sla_missed.
  rewrite Hs, Hc. apply String.eqb_neq in Hne. rewrite Hne, Hp.
  apply Z.ltb_lt.
Qed.

End SlaFacts.

Definition aged_ticket (prio : string) : issue :=
  {| key := Some "ITS-12";
     fields := Some {| summary := Some "VPN drops";
                       created := Some "2024-03-01T08:00:00Z";
                       status := Some {| name := Some "In Progress" |};
                       priority := Some {| name := Some prio |};
                       issuetype := None; reporter := None; assignee := None |} |}.

(** The ticket was created at 2024-03-01T08:00:00 UTC. *)
Definition created_instant : Z := 63844876800000000.

(** 96h01m after creation, and 95h59m after it. *)
Definition clock_late : Py.clock :=
  {| Py.local_now := created_instant;
     Py.utc_now := created_instant + 96 * Py.hour_us + 60 * Py.second_us |}.
Definition clock_early : Py.clock :=
  {| Py.local_now := created_instant;
     Py.utc_now := created_instant + 96 * Py.hour_us - 60 * Py.second_us |}.

Lemma is_sla_missed_flat_96h_witness :
  is_sla_missed CPython.fromisoformat clock_late (aged_ticket "Low") = true
  /\ is_sla_missed CPython.fromisoformat clock_early (aged_ticket "Critical") = false.
Proof.
  split.
  - apply (proj2 (proj2 (is_sla_missed_flat_96h CPython.fromisoformat clock_late
                           (aged_ticket "Low"))) (Py.Aware created_instant)).
    + reflexivity.
    + exists "2024-03-01T08:00:00Z". repeat split; [discriminate].
    + reflexivity.
  - destruct (is_sla_missed CPython.fromisoformat clock_early
                (aged_ticket "Critical")) eqn:E; [|reflexivity].
    apply (proj2 (proj2 (is_sla_missed_flat_96h CPython.fromisoformat clock_early
                           (aged_ticket "Critical"))) (Py.Aware created_instant)) in E.
    + vm_compute in E. discriminate.
    + reflexivity.
    + exists "2024-03-01T08:00:00Z". repeat split; [discriminate].
Defined.

(** *** Transition keyword matching *)

Definition start_progress : transition :=
  {| t_id := "11"; t_name := "Start Progress"; t_to := "In Progress" |}.
Definition resolve_issue : transition :=
  {| t_id := "21"; t_name := "Resolve Issue"; t_to := "Resolved" |}.
Definition close_issue : transition :=
  {| t_id := "31"; t_name := "Close Issue"; t_to := "Closed" |}.

Definition example_transitions : list transition :=
  [start_progress; resolve_issue; close_issue].

(** C2, as stated, fails: on the example set the reopen action finds a match
    ("Start Progress" contains the keyword "start") and applies it, and
    the Ticket Operations Manager's close action never applies
    "Close Issue", whatever the operator answers. *)
Lemma reopen_finds_start_progress :
  open_ticket (Some example_transitions) = Apply start_progress
  /\ open_ticket (Some example_transitions) <> Nothing
  /\ close_ticket (Some example_transitions) (Some true) <> Apply close_issue
  /\ close_ticket (Some example_transitions) (Some false) <> Apply close_issue
  /\ close_ticket (Some example_transitions) None <> Apply close_issue.
Proof. vm_compute. repeat split; discriminate. Qed.

(** C2, amended: on the example set the Ticket Operations Manager's close
    action matches "Resolve Issue" and "Close Issue", asks the operator and on
    a yes applies the first, "Resolve Issue" (otherwise nothing); the
    enhanced shell's close action applies "Close Issue"; the resolve action
    applies "Resolve Issue"; the reopen action applies "Start Progress". *)
Theorem transition_keyword_matching :
  matching ["close"; "done"; "complete"; "resolve"] example_transitions
    = [resolve_issue; close_issue]
  /\ close_ticket (Some example_transitions) (Some true) = Apply resolve_issue
  /\ close_ticket (Some example_transitions) (Some false) = Nothing
  /\ close_ticket (Some example_transitions) None = Nothing
  /\ enhanced_close_ticket (Some example_transitions) = Apply close_issue
  /\ resolve_ticket (Some example_transitions) = Apply resolve_issue
  /\ open_ticket (Some example_transitions) = Apply start_progress.
Proof. repeat split; reflexivity. Qed.

End TicketsFacts.

(** ** Reminders *)

Module RemindersFacts.
Import Reminders.

Section Due.

Variable fromisoformat : string -> Py.exc Py.datetime.
Variable clk : Py.clock.

(** The dates of a stored reminder read back as naive datetimes, which is
    what [add_reminder] and [snooze_reminder] write with [isoformat()]. *)
Definition dates_readable (r : reminder) : Prop :=
  (exists d, fromisoformat (due_date r) = Py.Ret (Py.Naive d))
  /\ (forall s, snooze_text r = Some s ->
        exists t, fromisoformat s = Py.Ret (Py.Naive t)).

(** The three conditions of the specification, "in the past" read as "not
    after the current reading of the clock". *)
Definition is_due (r : reminder) : Prop :=
  completed r = false
  /\ (forall s t, snooze_text r = Some s ->
        fromisoformat s = Py.Ret (Py.Naive t) -> t <= Py.local_now clk)
  /\ (exists d, fromisoformat (due_date r) = Py.Ret (Py.Naive d)
                /\ d <= Py.local_now clk).

(** The same conditions as a test, for readable dates. *)
Definition is_due_b (r : reminder) : bool :=
  negb (completed r)
  && match snooze_text r with
     | Some s =>
         match fromisoformat s with
         | Py.Ret (Py.Naive t) => t <=? Py.local_now clk
         | _ => false
         end
     | None => true
     end
  && match fromisoformat (due_date r) with
     | Py.Ret (Py.Naive d) => d <=? Py.local_now clk
     | _ => false
     end.

Lemma is_due_b_spec (r : reminder) :
  dates_readable r -> (is_due_b r = true <-> is_due r).
Proof.
  intros [[d Hd] Hs]. unfold is_due_b, is_due. rewrite Hd.
  destruct (completed r); simpl; [intuition discriminate|].
  destruct (snooze_text r) as [s|] eqn:Es.
  - destruct (Hs s eq_refl) as [t Ht]. rewrite Ht.
    rewrite andb_true_iff, !Z.leb_le. split.
    + intros [H1 H2]. split; [reflexivity|]. split.
      * intros s' t' E Ht'. injection E as <-. rewrite Ht in Ht'.
        injection Ht' as <-. exact H1.
      * exists d. split; [reflexivity | exact H2].
    + intros (_ & H1 & (d' & Hd' & H2)). injection Hd' as <-.
      split; [exact (H1 s t eq_refl Ht) | exact H2].
  - simpl. rewrite Z.leb_le. split.
    + intros H. split; [reflexivity|]. split; [discriminate|].
      exists d. split; [reflexivity | exact H].
    + intros (_ & _ & (d' & Hd' & H2)). injection Hd' as <-. exact H2.
Qed.

Lemma due_step_readable (acc : list reminder) (r : reminder) :
  dates_readable r ->
  due_step fromisoformat (Py.Naive (Py.local_now clk)) acc r
  = Py.Ret (acc ++ List.filter is_due_b [r])%list.
Proof.
  intros [[d Hd] Hs]. unfold due_step, is_due_b. simpl.
  destruct (completed r); simpl; [now rewrite app_nil_r|].
  destruct (snooze_text r) as [s|] eqn:Es; simpl.
  - destruct (Hs s eq_refl) as [t Ht]. rewrite Ht. simpl.
    rewrite Z.ltb_antisym.
    destruct (t <=? Py.local_now clk); simpl; [|now rewrite app_nil_r].
    rewrite Hd. simpl. destruct (d <=? Py.local_now clk); simpl;
      [reflexivity | now rewrite app_nil_r].
  - rewrite Hd. simpl. destruct (d <=? Py.local_now clk); simpl;
      [reflexivity | now rewrite app_nil_r].
Qed.

Lemma due_loop_readable (rs acc : list reminder) :
  Forall dates_readable rs ->
  due_loop fromisoformat (Py.Naive (Py.local_now clk)) acc rs
  = Py.Ret (acc ++ List.filter is_due_b rs)%list.
Proof.
  revert acc. induction rs as [|r rs IH]; intros acc Hall; simpl.
  - now rewrite app_nil_r.
  - inversion Hall as [|? ? Hr Hrs]; subst.
    rewrite (due_step_readable acc r Hr). simpl.
    rewrite (IH _ Hrs). f_equal.
    destruct (is_due_b r); simpl; [|now rewrite app_nil_r].
    now rewrite <- app_assoc.
Qed.

(** C6: on a store whose dates are readable, get_due_reminders returns, in
    stored order, exactly the reminders that are not completed, whose snooze
    time (if set) has passed and whose due date has passed. *)
Theorem get_due_reminders_exact (reminders : list reminder) :
  Forall dates_readable reminders ->
  exists due,
    get_due_reminders fromisoformat clk reminders = Py.Ret due
    /\ due = List.filter is_due_b reminders
    /\ forall r, In r due <-> In r reminders /\ is_due r.
Proof.
  intros Hall. exists (List.filter is_due_b reminders).
  split; [apply (due_loop_readable reminders [] Hall)|].
  split; [reflexivity|].
  intros r. rewrite filter_In. rewrite List.Forall_forall in Hall.
  split; intros [Hin H]; (split; [assumption|]);
    apply (is_due_b_spec r (Hall r Hin)); assumption.
Qed.

End Due.

(** It is 2024-03-01T08:00:00 on the local clock. *)
Definition clock_now : Py.clock :=
  {| Py.local_now := 63844876800000000; Py.utc_now := 63844876800000000 |}.

Definition offboarding (n : Z) (due : string) (done : bool)
    (snooze : option string) : reminder :=
  {| r_id := n; title := "Disable accounts"; description := "";
     due_date := due; r_type := "offboarding"; priority := "critical";
     created := "2024-02-28T09:00:00"; completed := done;
     completed_date := None; snoozed_until := snooze |}.

(** Due an hour ago; the same snoozed for another hour; the same
    completed; and one due in an hour. *)
Definition store : list reminder :=
  [offboarding 1 "2024-03-01T07:00:00" false None;
   offboarding 2 "2024-03-01T07:00:00" false (Some "2024-03-01T09:00:00");
   offboarding 3 "2024-03-01T07:00:00" true None;
   offboarding 4 "2024-03-01T09:00:00" false None].

Lemma store_readable : Forall (dates_readable CPython.fromisoformat) store.
Proof.
  assert (CPython.fromisoformat "2024-03-01T07:00:00"
          = Py.Ret (Py.Naive 63844873200000000)) as H7 by (vm_compute; reflexivity).
  assert (CPython.fromisoformat "2024-03-01T09:00:00"
          = Py.Ret (Py.Naive 63844880400000000)) as H9 by (vm_compute; reflexivity).
  unfold store, dates_readable.
  constructor.
  { split; [exists 63844873200000000; exact H7 | intros s Hs; discriminate Hs]. }
  constructor.
  { split; [exists 63844873200000000; exact H7|].
    intros s Hs. injection Hs as <-. exists 63844880400000000. exact H9. }
  constructor.
  { split; [exists 63844873200000000; exact H7 | intros s Hs; discriminate Hs]. }
  constructor.
  { split; [exists 63844880400000000; exact H9 | intros s Hs; discriminate Hs]. }
  constructor.
Qed.

Lemma get_due_reminders_exact_witness :
  get_due_reminders CPython.fromisoformat clock_now store
  = Py.Ret [offboarding 1 "2024-03-01T07:00:00" false None].
Proof.
  destruct (get_due_reminders_exact CPython.fromisoformat clock_now store
              store_readable) as (due & E & -> & _).
  rewrite E. vm_compute. reflexivity.
Defined.

End RemindersFacts.

(** ** Comment monitor *)

Module MonitorFacts.
Import Monitor.

Section Loops.

Variable get_ticket_comments : string -> list comment.


Lemma check_loop_cons_fetched known found ticket rest k :
  key_of ticket = Some k -> get_ticket_comments k <> [] ->
  check_loop get_ticket_comments known found (ticket :: rest)
  = check_loop get_ticket_comments (<[k := ids (get_ticket_comments k)]> known)
      (found ++ found_for known ticket k (get_ticket_comments k))%list rest.
Proof.
  intros Hk Hne. simpl. rewrite Hk.
  destruct (get_ticket_comments k); [contradiction | reflexivity].
Qed.










Lemma check_loop_keeps known found tickets k :
  known !! k = Some (ids (get_ticket_comments k)) ->
  fst (check_loop get_ticket_comments known found tickets) !! k
  = Some (ids (get_ticket_comments k)).
Proof.
  revert known found. induction tickets as [|t ts IH]; intros known found Hk; simpl.
  - exact Hk.
  - destruct (key_of t) as [k'|]; [|now apply IH].
    destruct (get_ticket_comments k') as [|c cs] eqn:E; [now apply IH|].
    apply IH. rewrite lookup_insert. case_decide as Hkk.
    + subst k'. now rewrite E.
    + exact Hk.
Qed.

(** After a check the entry of every ticket whose fetch returned comments is
    the returned id list. *)
Lemma check_loop_refreshes known found tickets t k :
  In t tickets -> key_of t = Some k -> get_ticket_comments k <> [] ->
  fst (check_loop get_ticket_comments known found tickets) !! k
  = Some (ids (get_ticket_comments k)).
Proof.
  revert known found. induction tickets as [|t' ts IH]; intros known found Hin Hk Hne.
  - destruct Hin.
  - destruct Hin as [-> | Hin].
    + rewrite (check_loop_cons_fetched known found t ts k Hk Hne).
      apply check_loop_keeps. apply lookup_insert_eq.
    + simpl. destruct (key_of t') as [k'|]; [|now apply IH].
      destruct (get_ticket_comments k'); now apply IH.
Qed.

(** A ticket whose fetch returned nothing keeps its entry. *)
Lemma check_loop_skips_empty known found tickets k :
  get_ticket_comments k = [] ->
  fst (check_loop get_ticket_comments known found tickets) !! k = known !! k.
Proof.
  intros Hk. revert known found.
  induction tickets as [|t ts IH]; intros known found; simpl.
  - reflexivity.
  - destruct (key_of t) as [k'|]; [|apply IH].
    destruct (get_ticket_comments k') as [|c cs] eqn:E; [apply IH|].
    rewrite IH. apply lookup_insert_ne. intros ->. congruence.
Qed.

End Loops.



(** The baseline scan touches neither the pending list nor the UI. *)
Lemma scan_is_silent backend all_tickets m :
  new_comments (scan_current_tickets backend all_tickets m) = new_comments m
  /\ notifications (scan_current_tickets backend all_tickets m) = notifications m.
Proof. destruct all_tickets; split; reflexivity. Qed.



Definition ticket (k s : string) : Tickets.issue :=
  {| Tickets.key := Some k;
     Tickets.fields :=
       Some {| Tickets.summary := Some s; Tickets.created := None;
               Tickets.status := None; Tickets.priority := None;
               Tickets.issuetype := None; Tickets.reporter := None;
               Tickets.assignee := None |} |}.









End MonitorFacts.

(** ** Triage reply post-processing *)

Module TriageFacts.
Import Triage StringFacts.

(** *** span, strip and before cut substrings out of a text *)


Lemma span_all (p : ascii -> bool) (s : string) (c : ascii) (a b : string) :
  span p s = (a, String c b) -> p c = false.
Proof.
  revert a. induction s as [|c' s IH]; intros a; simpl; [discriminate|].
  destruct (p c') eqn:E.
  - destruct (span p s) as [a' b']. intros [= <- ->]. now apply (IH a').
  - intros [= <- <- <-]. exact E.
Qed.

Lemma span_length (p : ascii -> bool) (s : string) :
  (String.length (snd (span p s)) <= String.length s)%nat.
Proof.
  induction s as [|c s IH]; simpl; [lia|].
  destruct (p c); [|simpl; lia].
  destruct (span p s). simpl in *. lia.
Qed.









(** *** strip is idempotent *)


Lemma lstrip_fixed (c : ascii) (r : string) :
  is_space c = false -> lstrip (String c r) = String c r.
Proof. intros H. unfold lstrip. simpl. now rewrite H. Qed.




(** *** Where the patterns cannot match, re.sub changes nothing *)










(** *** The cleaned text is one line *)

Lemma span_length_sum (p : ascii -> bool) (s : string) :
  String.length s
  = (String.length (fst (span p s)) + String.length (snd (span p s)))%nat.
Proof.
  induction s as [|c s IH]; simpl; [reflexivity|].
  destruct (p c); [|reflexivity].
  destruct (span p s). simpl in *. lia.
Qed.



(** *** Removal of model-written sign-offs *)








(** *** The formatted reply *)










End TriageFacts.

(** ** Licensing *)

Module LicenseFacts.
Import Json License.

(** [r[k]] on a returned dict. *)
Definition field (r : json) (k : string) : option json :=
  match r with
  | JObj items => assoc k items
  | _ => None
  end.

Section AnyLibrary.

Variable L : pylib.
Variable H : host.

(** *** What the two methods return, case by case *)

Lemma validator_outcomes (now1 now2 : Z) (license_key : string) :
  validator_validate_license_key L now1 now2 license_key
  = match decode_and_verify L license_key with
    | Py.Raise e => invalid ("License validation error: " ++ Py.exn_msg e)
    | Py.Ret (data, false) => invalid "Invalid license signature"
    | Py.Ret (data, true) =>
        match expiry_of L data with
        | Py.Raise e => invalid ("License validation error: " ++ Py.exn_msg e)
        | Py.Ret (Py.Aware _) =>
            invalid ("License validation error: "
                     ++ "can't compare offset-naive and offset-aware datetimes")
        | Py.Ret (Py.Naive expiry) =>
            if expiry <? now1 then invalid "License expired"
            else valid data ((expiry - now2) / Py.day_us)
        end
    end.
Proof.
  unfold validator_validate_license_key, validator_try.
  destruct (decode_and_verify L license_key) as [[data [|]]|e]; simpl; try reflexivity.
  destruct (expiry_of L data) as [[expiry|instant]|e]; simpl; try reflexivity.
  destruct (expiry <? now1); reflexivity.
Qed.

(** Whether the manager's machine test rejects the data on this host. *)
Definition bound_elsewhere (data : json) (current_machine_id : string) : Py.exc bool :=
  try! recorded := get data "machine_id" in
  Py.Ret (match recorded with
          | Some m => truthy m && differs_from_str m current_machine_id
          | None => false
          end).

Lemma manager_outcomes (now1 now2 : Z) (license_key : string) :
  manager_validate_license_key L H now1 now2 license_key
  = match decode_and_verify L license_key with
    | Py.Raise e => invalid ("License validation error: " ++ Py.exn_msg e)
    | Py.Ret (data, false) => invalid "Invalid license signature"
    | Py.Ret (data, true) =>
        match expiry_of L data with
        | Py.Raise e => invalid ("License validation error: " ++ Py.exn_msg e)
        | Py.Ret (Py.Aware _) =>
            invalid ("License validation error: "
                     ++ "can't compare offset-naive and offset-aware datetimes")
        | Py.Ret (Py.Naive expiry) =>
            if expiry <? now1 then invalid "License expired"
            else
              match get_machine_id L H with
              | Py.Raise e => invalid ("License validation error: " ++ Py.exn_msg e)
              | Py.Ret current_machine_id =>
                  match bound_elsewhere data current_machine_id with
                  | Py.Raise e =>
                      invalid ("License validation error: " ++ Py.exn_msg e)
                  | Py.Ret true => invalid "License not valid for this machine"
                  | Py.Ret false => valid data ((expiry - now2) / Py.day_us)
                  end
              end
        end
    end.
Proof.
  unfold manager_validate_license_key, manager_try, bound_elsewhere.
  destruct (decode_and_verify L license_key) as [[data [|]]|e]; simpl; try reflexivity.
  destruct (expiry_of L data) as [[expiry|instant]|e]; simpl; try reflexivity.
  destruct (expiry <? now1); simpl; [reflexivity|].
  destruct (get_machine_id L H) as [id|e]; simpl; [|reflexivity].
  destruct (get data "machine_id") as [[m|]|e]; simpl; try reflexivity.
  destruct (truthy m && differs_from_str m id); reflexivity.
Qed.

(** Both methods return one of the two dicts. *)
Lemma validator_shape (now1 now2 : Z) (license_key : string) :
  (exists data days,
     validator_validate_license_key L now1 now2 license_key = valid data days)
  \/ (exists error,
        validator_validate_license_key L now1 now2 license_key = invalid error).
Proof.
  rewrite validator_outcomes.
  destruct (decode_and_verify L license_key) as [[data [|]]|e]; eauto.
  destruct (expiry_of L data) as [[expiry|instant]|e]; eauto.
  destruct (expiry <? now1); eauto.
Qed.

Lemma manager_shape (now1 now2 : Z) (license_key : string) :
  (exists data days,
     manager_validate_license_key L H now1 now2 license_key = valid data days)
  \/ (exists error,
        manager_validate_license_key L H now1 now2 license_key = invalid error).
Proof.
  rewrite manager_outcomes.
  destruct (decode_and_verify L license_key) as [[data [|]]|e]; eauto.
  destruct (expiry_of L data) as [[expiry|instant]|e]; eauto.
  destruct (expiry <? now1); eauto.
  destruct (get_machine_id L H); eauto.
  destruct (bound_elsewhere _ _) as [[|]|]; eauto.
Qed.

(** A key is well formed when it decodes to a payload with data and
    signature members, the data having an expires member. *)
Definition well_formed (license_key : string) : Prop :=
  exists payload data signature expires,
    load_payload L license_key = Py.Ret payload
    /\ subscript payload "data" = Py.Ret data
    /\ subscript payload "signature" = Py.Ret signature
    /\ subscript data "expires" = Py.Ret expires.

Lemma verified_well_formed (license_key : string) (data : json) :
  decode_and_verify L license_key = Py.Ret (data, true) ->
  (exists x, expiry_of L data = Py.Ret x) ->
  well_formed license_key.
Proof.
  unfold decode_and_verify, expiry_of, well_formed. intros Hd [x Hx].
  destruct (load_payload L license_key) as [payload|]; [|discriminate].
  simpl in Hd.
  destruct (subscript payload "data") as [data'|] eqn:E1; [|discriminate].
  simpl in Hd.
  destruct (subscript payload "signature") as [signature|] eqn:E2; [|discriminate].
  simpl in Hd.
  destruct (sign L data') as [expected|]; [|discriminate]. simpl in Hd.
  destruct (compare_digest signature expected); [|discriminate].
  simpl in Hd. injection Hd as -> _.
  destruct (subscript data "expires") as [expires|] eqn:E3; [|discriminate].
  exists payload, data, signature, expires. auto.
Qed.

(** C10: for every input string both validate_license_key methods return a
    dict with a boolean "valid" member (the except clause turns every
    exception of the body into such a dict); and for a key that is not base64
    of JSON with data, signature and expires members the dict has valid=false
    and an error message. *)
Theorem validate_license_key_total (now1 now2 : Z) (license_key : string) :
  let v := validator_validate_license_key L now1 now2 license_key in
  let m := manager_validate_license_key L H now1 now2 license_key in
  (exists b, field v "valid" = Some (JBool b))
  /\ (exists b, field m "valid" = Some (JBool b))
  /\ (~ well_formed license_key ->
      (exists error, v = invalid error /\ field v "valid" = Some (JBool false)
                     /\ field v "error" = Some (JStr error))
      /\ (exists error, m = invalid error /\ field m "valid" = Some (JBool false)
                        /\ field m "error" = Some (JStr error))).
Proof.
  intros v m.
  split; [destruct (validator_shape now1 now2 license_key) as [(d & n & E)|(e & E)];
          subst v; rewrite E; eauto|].
  split; [destruct (manager_shape now1 now2 license_key) as [(d & n & E)|(e & E)];
          subst m; rewrite E; eauto|].
  intros Hbad. split.
  - destruct (validator_shape now1 now2 license_key) as [(d & n & E)|(e & E)];
      [|exists e; subst v; rewrite E; auto].
    exfalso. apply Hbad. rewrite validator_outcomes in E.
    destruct (decode_and_verify L license_key) as [[data [|]]|] eqn:Hd; try discriminate E.
    apply (verified_well_formed license_key data Hd).
    destruct (expiry_of L data) as [x|]; [eauto | discriminate E].
  - destruct (manager_shape now1 now2 license_key) as [(d & n & E)|(e & E)];
      [|exists e; subst m; rewrite E; auto].
    exfalso. apply Hbad. rewrite manager_outcomes in E.
    destruct (decode_and_verify L license_key) as [[data [|]]|] eqn:Hd; try discriminate E.
    apply (verified_well_formed license_key data Hd).
    destruct (expiry_of L data) as [x|]; [eauto | discriminate E].
Qed.

(** C1, amended: for a key whose signature verifies and whose expires member
    is a naive timestamp not before now, LicenseValidator returns valid=true
    whatever the machine_id member is; LicenseManager, whose machine test is
    active, returns "License not valid for this machine" when the member is
    present, truthy and differs from the id of the host, and valid=true
    otherwise. *)
Theorem machine_binding (now1 now2 : Z) (license_key : string) (data : json)
    (expiry : Z) (current_machine_id : string) :
  decode_and_verify L license_key = Py.Ret (data, true) ->
  expiry_of L data = Py.Ret (Py.Naive expiry) ->
  now1 <= expiry ->
  get_machine_id L H = Py.Ret current_machine_id ->
  validator_validate_license_key L now1 now2 license_key
  = valid data ((expiry - now2) / Py.day_us)
  /\ (forall m, get data "machine_id" = Py.Ret (Some m) ->
        truthy m = true -> m <> JStr current_machine_id ->
        manager_validate_license_key L H now1 now2 license_key
        = invalid "License not valid for this machine")
  /\ (get data "machine_id" = Py.Ret (Some (JStr current_machine_id)) ->
      manager_validate_license_key L H now1 now2 license_key
      = valid data ((expiry - now2) / Py.day_us)).
Proof.
  intros Hd He Hle Hid.
  assert ((expiry <? now1) = false) as Hlt by (apply Z.ltb_ge; exact Hle).
  split; [|split].
  - rewrite validator_outcomes, Hd, He, Hlt. reflexivity.
  - intros m Hm Ht Hne.
    rewrite manager_outcomes, Hd, He, Hlt, Hid. unfold bound_elsewhere.
    rewrite Hm. simpl. rewrite Ht.
    assert (differs_from_str m current_machine_id = true) as ->; [|reflexivity].
    destruct m; try reflexivity. simpl.
    destruct (String.eqb_spec s current_machine_id); [congruence | reflexivity].
  - intros Hm.
    rewrite manager_outcomes, Hd, He, Hlt, Hid. unfold bound_elsewhere.
    rewrite Hm. simpl. rewrite String.eqb_refl, andb_false_r. reflexivity.
Qed.



End AnyLibrary.

(** *** A key generated and validated with the CPython library *)

Definition office_pc : host :=
  {| hostname := "support-pc"; system := "Windows"; machine := "AMD64";
     mac := 123456789012345 |}.

Definition laptop : host :=
  {| hostname := "laptop-7"; system := "Linux"; machine := "x86_64";
     mac := 98765432101234 |}.

(** 2026-11-04T09:30:15.123456 *)
Definition generation_time : Z := 63929381415123456.

Definition sample_key : string :=
  "eyJkYXRhIjogeyJlbWFpbCI6ICJhQGIuY29tIiwgInR5cGUiOiAic3RhbmRh"
  ++ "cmQiLCAiZXhwaXJlcyI6ICIyMDI3LTExLTA0VDA5OjMwOjE1LjEyMzQ1NiIs"
  ++ "ICJtYWNoaW5lX2lkIjogIjlhMjI5MjdhYTMwYjBlODMiLCAidmVyc2lvbiI6"
  ++ "ICIxLjAiLCAiZmVhdHVyZXMiOiB7ImNyZWF0ZV90aWNrZXRzIjogdHJ1ZSwg"
  ++ "ImNvbW1lbnRfdGlja2V0cyI6IHRydWUsICJhc3NpZ25fdGlja2V0cyI6IHRy"
  ++ "dWUsICJzZWFyY2hfdGlja2V0cyI6IHRydWUsICJleHBvcnRfZGF0YSI6IHRy"
  ++ "dWUsICJhcGlfYWNjZXNzIjogdHJ1ZSwgInByaW9yaXR5X3N1cHBvcnQiOiBm"
  ++ "YWxzZSwgIm1heF91c2VycyI6IDV9fSwgInNpZ25hdHVyZSI6ICIxZjMwMzAw"
  ++ "NDUyYjVmZjhiZmEwOGU5ODQwYWYwMDIxZTc3YjMwZDA1MDEyYWRhYjRmNGEz"
  ++ "OTVlOGZjNjBiOWZkIn0=".



Definition sample_data : json :=
  license_data CPython.lib "a@b.com" "standard"
    (generation_time + 365 * Py.day_us) "9a22927aa30b0e83".

Lemma sample_key_generated :
  generate_license_key CPython.lib office_pc generation_time "a@b.com" "standard" 365
  = Py.Ret sample_key.
Proof. vm_compute. reflexivity. Qed.



Lemma sample_key_verifies :
  decode_and_verify CPython.lib sample_key = Py.Ret (sample_data, true)
  /\ expiry_of CPython.lib sample_data
     = Py.Ret (Py.Naive (generation_time + 365 * Py.day_us)).
Proof. split; vm_compute; reflexivity. Qed.

(** C1, as stated, fails for LicenseManager.validate_license_key: the
    sample key, generated on one host, has a signature that verifies and an
    expiry a year ahead, LicenseValidator accepts it, and LicenseManager on
    another host answers "License not valid for this machine". *)
Lemma manager_enforces_machine_id :
  decode_and_verify CPython.lib sample_key = Py.Ret (sample_data, true)
  /\ validator_validate_license_key CPython.lib generation_time generation_time
       sample_key = valid sample_data 365
  /\ manager_validate_license_key CPython.lib laptop generation_time
       generation_time sample_key
     = invalid "License not valid for this machine".
Proof. repeat split; vm_compute; reflexivity. Qed.

Lemma machine_binding_witness :
  validator_validate_license_key CPython.lib generation_time generation_time
    sample_key = valid sample_data 365
  /\ manager_validate_license_key CPython.lib laptop generation_time
       generation_time sample_key
     = invalid "License not valid for this machine"
  /\ manager_validate_license_key CPython.lib office_pc generation_time
       generation_time sample_key = valid sample_data 365.
Proof.
  destruct (machine_binding CPython.lib laptop generation_time generation_time
              sample_key sample_data (generation_time + 365 * Py.day_us)
              "b7c6e179bc950406")
    as (Hv & Hm & _);
    [vm_compute; reflexivity | vm_compute; reflexivity | vm_compute; discriminate
    | vm_compute; reflexivity |].
  destruct (machine_binding CPython.lib office_pc generation_time generation_time
              sample_key sample_data (generation_time + 365 * Py.day_us)
              "9a22927aa30b0e83")
    as (_ & _ & Ho);
    [vm_compute; reflexivity | vm_compute; reflexivity | vm_compute; discriminate
    | vm_compute; reflexivity |].
  split; [exact Hv|].
  split; [|apply Ho; vm_compute; reflexivity].
  apply (Hm (JStr "9a22927aa30b0e83")); [vm_compute; reflexivity | reflexivity
                                       | discriminate].
Defined.




Lemma validate_license_key_total_witness :
  validator_validate_license_key CPython.lib generation_time generation_time
    "not a license"
  = invalid "License validation error: Incorrect padding"
  /\ field (manager_validate_license_key CPython.lib office_pc generation_time
              generation_time "not a license") "valid" = Some (JBool false).
Proof.
  destruct (validate_license_key_total CPython.lib office_pc generation_time
              generation_time "not a license") as (_ & _ & Hbad).
  destruct Hbad as ((e & Hv & _ & _) & (e' & _ & Hm & _)).
  - intros (payload & data & signature & expires & Hl & _).
    vm_compute in Hl. discriminate Hl.
  - split; [|exact Hm]. rewrite Hv. vm_compute in Hv. injection Hv as <-.
    reflexivity.
Defined.

End LicenseFacts.

(** ** More on filters and transitions *)

Module TicketActionsFacts.
Import Py Tickets PyFacts StringFacts.

Definition has_keyword (keywords : list string) (t : transition) : bool :=
  any_in keywords (lower (t_name t)).

Lemma matching_nil (keywords : list string) (ts : list transition) :
  matching keywords ts = [] <-> Forall (fun t => has_keyword keywords t = false) ts.
Proof.
  unfold matching. induction ts as [|t ts IH]; simpl.
  - split; [constructor | reflexivity].
  - fold (has_keyword keywords t). destruct (has_keyword keywords t) eqn:E.
    + split; [discriminate|]. intros Hall. inversion Hall. congruence.
    + rewrite IH. split; [now constructor | intros Hall; now inversion Hall].
Qed.

Lemma matching_first (keywords : list string) (ts : list transition)
    (t : transition) (rest : list transition) :
  matching keywords ts = t :: rest ->
  exists before after,
    ts = (before ++ t :: after)%list
    /\ has_keyword keywords t = true
    /\ Forall (fun u => has_keyword keywords u = false) before
    /\ rest = matching keywords after.
Proof.
  unfold matching. induction ts as [|u ts IH]; simpl; [discriminate|].
  fold (has_keyword keywords u). destruct (has_keyword keywords u) eqn:E.
  - intros [= -> <-]. exists [], ts. repeat split; [exact E | constructor].
  - intros Hm. destruct (IH Hm) as (before & after & -> & Ht & Hb & Hr).
    exists (u :: before), after. repeat split; [exact Ht | now constructor | exact Hr].
Qed.

Definition close_keywords : list string := ["close"; "done"; "complete"; "resolve"].

(** X1: the Close action of the Ticket Operations Manager, for every list
    of transitions and every answer of the operator.  A transition is
    applied only if its lowered name contains close, done, complete or
    resolve, it is the first such transition of the list, and when a later
    one matches too the operator has answered yes; nothing is applied when
    several match and the answer is no or cancel; the warning appears
    exactly when no name matches, and lists all names. *)
Theorem close_ticket_first_match (ts : list transition) (choice : option bool) :
  match close_ticket (Some ts) choice with
  | Apply t =>
      exists before after,
        ts = (before ++ t :: after)%list
        /\ has_keyword close_keywords t = true
        /\ Forall (fun u => has_keyword close_keywords u = false) before
        /\ (choice = Some true
            \/ Forall (fun u => has_keyword close_keywords u = false) after)
  | Nothing =>
      choice <> Some true
      /\ exists t1 t2 rest, matching close_keywords ts = t1 :: t2 :: rest
  | ShowWarning msg =>
      Forall (fun u => has_keyword close_keywords u = false) ts
      /\ msg = "No close transition available. Available transitions: "
               ++ join ", " (map t_name ts)
  | ShowError _ => False
  end.
Proof.
  unfold close_ticket. fold close_keywords.
  destruct (matching close_keywords ts) as [|t rest] eqn:Hm.
  - split; [now apply matching_nil | reflexivity].
  - destruct (matching_first _ _ _ _ Hm) as (before & after & Hts & Ht & Hb & Hr).
    destruct rest as [|t2 rest].
    + change (1 <? Z.of_nat (List.length [t])) with false. cbn [andb].
      exists before, after. repeat split; try assumption.
      right. apply matching_nil. now symmetry.
    + cbn [List.length]. 
      replace (1 <? Z.of_nat (S (S (List.length rest)))) with true
        by (symmetry; apply Z.ltb_lt; lia).
      cbn [andb]. destruct choice as [[|]|]; cbn [negb].
      * exists before, after. repeat split; try assumption. now left.
      * split; [discriminate | eauto].
      * split; [discriminate | eauto].
Qed.

(** X2: the Resolve action of the enhanced shell applies the first
    transition whose lowered name contains resolve or done; when no name
    does it opens the status dialog, and the Ticket Operations Manager's
    Resolve, which looks for resolve only, then shows its warning. *)
Theorem enhanced_resolve_first_match (ts : list transition) :
  match EnhancedActions.resolve_ticket (Some ts) with
  | EnhancedActions.Post t =>
      exists before after,
        ts = (before ++ t :: after)%list
        /\ has_keyword ["resolve"; "done"] t = true
        /\ Forall (fun u => has_keyword ["resolve"; "done"] u = false) before
  | EnhancedActions.StatusDialog =>
      Forall (fun u => has_keyword ["resolve"; "done"] u = false) ts
      /\ resolve_ticket (Some ts)
         = ShowWarning ("No resolve transition available. Available transitions: "
                        ++ join ", " (map t_name ts))
  | EnhancedActions.ErrorBox _ => False
  end.
Proof.
  unfold EnhancedActions.resolve_ticket.
  destruct (matching ["resolve"; "done"] ts) as [|t rest] eqn:Hm.
  - apply matching_nil in Hm. split; [exact Hm|].
    unfold resolve_ticket.
    assert (matching ["resolve"] ts = []) as ->; [|reflexivity].
    apply matching_nil. eapply List.Forall_impl; [|exact Hm].
    intros u. unfold has_keyword, any_in. cbn [existsb].
    destruct (contains "resolve" _); [discriminate | reflexivity].
  - destruct (matching_first _ _ _ _ Hm) as (before & after & Hts & Ht & Hb & _).
    exists before, after. auto.
Qed.




(** X4: under All Open the enhanced shell lists exactly the cached issues
    whose status is not a completed one, in cache order, whatever the hide
    completed box and the configured email are. *)
Theorem all_open_ignores_hide_completed (all_tickets : list issue)
    (hide_completed : bool) (user_email : string) :
  Enhanced.tickets_to_show all_tickets "All Open" hide_completed user_email
  = List.filter (fun i => negb (status_is_completed i)) all_tickets.
Proof.
  unfold Enhanced.tickets_to_show. apply filter_ext. intros i.
  unfold Enhanced.keeps, status_is_completed.
  cbn [String.eqb Ascii.eqb Bool.eqb andb negb]. rewrite andb_false_r.
  now destruct (any_in completed_statuses _).
Qed.

End TicketActionsFacts.

(** ** More on the comment monitor *)

Module MonitorChecksFacts.
Import Monitor MonitorFacts.

Section Checks.

Variable get_ticket_comments : string -> list comment.

(** Every cached ticket whose fetch returns comments has the returned ids as
    its entry. *)
Definition up_to_date (tickets : list Tickets.issue)
    (known : gmap string (list string)) : Prop :=
  forall t k, In t tickets -> key_of t = Some k -> get_ticket_comments k <> [] ->
    known !! k = Some (ids (get_ticket_comments k)).

Lemma no_new_ids (l : list string) :
  List.filter (fun cid => negb (Py.mem cid l)) l = [].
Proof.
  assert (forall l', (forall x, In x l' -> In x l) ->
            List.filter (fun cid => negb (Py.mem cid l)) l' = []) as Hgen.
  { induction l' as [|x l' IH]; intros Hsub; [reflexivity|]. simpl.
    assert (Py.mem x l = true) as ->
      by (apply PyFacts.mem_true, Hsub; now left).
    simpl. apply IH. intros y Hy. apply Hsub. now right. }
  apply Hgen. auto.
Qed.

Lemma check_loop_up_to_date tickets :
  forall known found,
    up_to_date tickets known ->
    check_loop get_ticket_comments known found tickets = (known, found).
Proof.
  induction tickets as [|t ts IH]; intros known found Hup; [reflexivity|].
  assert (up_to_date ts known) as Hup'
    by (intros t' k Hin; apply Hup; now right).
  cbn [check_loop]. destruct (key_of t) as [k|] eqn:Ek; [|now apply IH].
  destruct (get_ticket_comments k) as [|c cs] eqn:E; [now apply IH|].
  assert (known !! k = Some (ids (c :: cs))) as Hk.
  { rewrite <- E. apply (Hup t k); [now left | exact Ek | congruence]. }
  rewrite insert_id by exact Hk.
  unfold found_for. rewrite Hk, no_new_ids, app_nil_r. now apply IH.
Qed.

Lemma check_loop_makes_up_to_date tickets known found :
  up_to_date tickets (fst (check_loop get_ticket_comments known found tickets)).
Proof.
  intros t k Hin Hk Hne. now apply (check_loop_refreshes _ _ _ _ t).
Qed.

(** The entries a check adds are sound: each is for a key that had an entry
    before the check, with a comment of the present fetch whose id that
    entry does not hold. *)
Definition genuinely_new (known : gmap string (list string)) (nc : new_comment)
  : Prop :=
  exists known_ids,
    known !! ticket_key nc = Some known_ids
    /\ ~ In (c_id (nc_comment nc)) known_ids
    /\ In (nc_comment nc) (get_ticket_comments (ticket_key nc)).

Lemma found_for_genuine known ticket k nc :
  In nc (found_for known ticket k (get_ticket_comments k)) ->
  genuinely_new known nc.
Proof.
  unfold found_for. destruct (known !! k) as [known_ids|] eqn:Ek; [|intros []].
  set (new_ids := List.filter _ _).
  destruct new_ids as [|x xs] eqn:En; [intros []|]. rewrite <- En.
  intros Hin. apply in_map_iff in Hin as (c & <- & Hc).
  apply filter_In in Hc as [Hc Hmem]. apply PyFacts.mem_true in Hmem.
  subst new_ids. apply filter_In in Hmem as [_ Hnot].
  exists known_ids. cbn. split; [exact Ek|]. split; [|exact Hc].
  intros Hin. apply PyFacts.mem_true in Hin. rewrite Hin in Hnot. discriminate.
Qed.

Lemma check_loop_genuine tickets (initial : gmap string (list string)) :
  forall known found,
    (forall k, known !! k = initial !! k
               \/ known !! k = Some (ids (get_ticket_comments k))) ->
    exists added,
      snd (check_loop get_ticket_comments known found tickets)
      = (found ++ added)%list
      /\ Forall (genuinely_new initial) added.
Proof.
  induction tickets as [|t ts IH]; intros known found Hinv.
  - exists []. split; [now rewrite app_nil_r | constructor].
  - cbn [check_loop]. destruct (key_of t) as [k|] eqn:Ek; [|now apply IH].
    destruct (get_ticket_comments k) as [|c cs] eqn:E; [now apply IH|].
    rewrite <- E.
    edestruct (IH (<[k := ids (get_ticket_comments k)]> known)
                 (found ++ found_for known t k (get_ticket_comments k))%list)
      as (added & Hadded & Hgen).
    { intros k'. rewrite lookup_insert. case_decide as Hkk.
      - subst k'. now right.
      - apply Hinv. }
    exists (found_for known t k (get_ticket_comments k) ++ added)%list.
    split; [now rewrite Hadded, app_assoc|].
    apply Forall_app. split; [|exact Hgen].
    apply List.Forall_forall. intros nc Hnc.
    destruct (Hinv k) as [Hk|Hk].
    + pose proof (found_for_genuine known t k nc Hnc) as (known_ids & H1 & H2 & H3).
      assert (ticket_key nc = k) as Hkey.
      { revert Hnc. unfold found_for. destruct (known !! k); [|intros []].
        destruct (List.filter _ (ids _)); [intros []|].
        intros Hin. apply in_map_iff in Hin as (c' & <- & _). reflexivity. }
      exists known_ids. rewrite Hkey in *. rewrite <- Hk. auto.
    + exfalso. revert Hnc. unfold found_for. rewrite Hk, no_new_ids. intros [].
Qed.

End Checks.

Lemma check_appends (backend : string -> list comment)
    (all_tickets : option (list Tickets.issue)) (m : monitor) :
  exists added,
    new_comments (check_for_new_comments backend all_tickets m)
    = (new_comments m ++ added)%list
    /\ notifications (check_for_new_comments backend all_tickets m)
       = (notifications m + match added with [] => 0 | _ => 1 end)%nat.
Proof.
  destruct all_tickets as [tickets|]; cbn.
  - destruct (check_loop backend (known_comments m) [] tickets) as [known found].
    exists found. destruct found; cbn; split;
      try reflexivity; try (now rewrite app_nil_r); lia.
  - exists []. split; [now rewrite app_nil_r | lia].
Qed.

(** X5: a check repeated against the same backend answers reports nothing:
    the second check leaves the monitor as the first one left it, with no
    further entry and no further notification. *)
Theorem recheck_reports_nothing (backend : string -> list comment)
    (all_tickets : option (list Tickets.issue)) (m : monitor) :
  check_for_new_comments backend all_tickets
    (check_for_new_comments backend all_tickets m)
  = check_for_new_comments backend all_tickets m.
Proof.
  destruct all_tickets as [tickets|]; [|reflexivity].
  assert (known_comments (check_for_new_comments backend (Some tickets) m)
          = fst (check_loop backend (known_comments m) [] tickets)) as Hk.
  { cbn. destruct (check_loop backend (known_comments m) [] tickets)
      as [known found]. now destruct found. }
  revert Hk. generalize (check_for_new_comments backend (Some tickets) m).
  intros [k1 n1 c1]. cbn [known_comments]. intros ->.
  cbn [check_for_new_comments known_comments].
  rewrite check_loop_up_to_date by apply check_loop_makes_up_to_date.
  reflexivity.
Qed.

(** X6: a check only appends to the list of new comments and schedules one
    notification exactly when it appends something; every appended entry is
    for a ticket key that had an entry of known ids before the check and
    carries a comment of the present fetch whose id was not among them. *)
Theorem check_appends_genuinely_new (backend : string -> list comment)
    (all_tickets : option (list Tickets.issue)) (m : monitor) :
  let m' := check_for_new_comments backend all_tickets m in
  exists added,
    new_comments m' = (new_comments m ++ added)%list
    /\ notifications m'
       = (notifications m + match added with [] => 0 | _ => 1 end)%nat
    /\ Forall (genuinely_new backend (known_comments m)) added.
Proof.
  destruct all_tickets as [tickets|]; cbn zeta.
  - unfold check_for_new_comments.
    destruct (check_loop_genuine backend tickets (known_comments m)
                (known_comments m) []) as (added & Hadded & Hgen); [now left|].
    destruct (check_loop backend (known_comments m) [] tickets) as [known found].
    cbn [snd app] in Hadded. subst found. exists added.
    destruct added; cbn; repeat split; try exact Hgen; try reflexivity;
      try (now rewrite app_nil_r); lia.
  - exists []. cbn. repeat split; [now rewrite app_nil_r | lia | constructor].
Qed.

(** X7: the monitor loop never drops an entry and schedules at most one
    notification per wake-up: after the baseline scan and any number of
    checks, the list of new comments extends the initial one and the
    notification count has grown by at most the number of wake-ups. *)
Theorem monitor_loop_bounds (all_tickets : option (list Tickets.issue))
    (baseline : string -> list comment)
    (wakeups : list (string -> list comment)) (m : monitor) :
  let m' := monitor_loop all_tickets baseline wakeups m in
  (exists added, new_comments m' = (new_comments m ++ added)%list)
  /\ (notifications m <= notifications m'
      <= notifications m + List.length wakeups)%nat.
Proof.
  cbn zeta. unfold monitor_loop.
  assert (new_comments (scan_current_tickets baseline all_tickets m)
          = new_comments m
          /\ notifications (scan_current_tickets baseline all_tickets m)
             = notifications m) as [Hn Hc]
    by (destruct all_tickets; split; reflexivity).
  rewrite <- Hn, <- Hc.
  generalize (scan_current_tickets baseline all_tickets m). clear.
  induction wakeups as [|w ws IH]; intros m0; cbn [fold_left List.length].
  - split; [exists []; now rewrite app_nil_r | lia].
  - destruct (check_appends w all_tickets m0)
      as (added & Ha & Hcount).
    destruct (IH (check_for_new_comments w all_tickets m0)) as ((more & Hm) & Hb).
    split.
    + exists (added ++ more)%list. now rewrite Hm, Ha, app_assoc.
    + rewrite Hcount in Hb. destruct added; lia.
Qed.

End MonitorChecksFacts.

(** ** The CPython library reads back what it writes *)

Module CPythonFacts.
Import Json License CPython StringFacts.



(** *** Enumeration over a range of integers *)

Lemma range_all (P : Z -> bool) (lo : Z) (k : nat) :
  forallb P (map (fun i => lo + Z.of_nat i) (seq 0 k)) = true ->
  forall n, lo <= n < lo + Z.of_nat k -> P n = true.
Proof.
  intros Hall n Hn. rewrite forallb_forall in Hall. apply Hall.
  apply in_map_iff. exists (Z.to_nat (n - lo)). split; [lia|].
  apply in_seq. lia.
Qed.

(** *** Bytes and strings *)

Definition byte_range (b : Z) : Prop := 0 <= b < 256.

Lemma of_bytes_of (s : string) : of_bytes (bytes_of s) = s.
Proof.
  induction s as [|c s IH]; [reflexivity|]. simpl.
  now rewrite N2Z.id, ascii_N_embedding, IH.
Qed.

Lemma bytes_of_range (s : string) : List.Forall byte_range (bytes_of s).
Proof.
  induction s as [|c s IH]; simpl; constructor; [|exact IH].
  unfold byte_range. pose proof (N_ascii_bounded c). lia.
Qed.

Lemma bytes_of_bytes (l : list Z) :
  List.Forall byte_range l -> bytes_of (of_bytes l) = l.
Proof.
  induction 1 as [|b l Hb _ IH]; [reflexivity|]. simpl.
  rewrite N_ascii_embedding by (unfold byte_range in Hb; lia).
  rewrite Z2N.id by (unfold byte_range in Hb; lia). now rewrite IH.
Qed.

Lemma bytes_of_append (a b : string) :
  bytes_of (a ++ b) = (bytes_of a ++ bytes_of b)%list.
Proof.
  induction a as [|c a IH]; [reflexivity|].
  rewrite append_cons. simpl. now rewrite IH.
Qed.

Lemma bytes_of_length (s : string) : List.length (bytes_of s) = String.length s.
Proof. induction s as [|c s IH]; simpl; congruence. Qed.

(** *** base64 *)

Lemma b64_char_value (n : Z) :
  0 <= n < 64 ->
  b64_value (b64_char n) = Some n /\ (b64_char n =? 61) = false
  /\ byte_range (b64_char n).
Proof.
  intros Hn.
  pose (P := fun n => match b64_value (b64_char n) with
                      | Some m => (m =? n) && negb (b64_char n =? 61)
                                  && (0 <=? b64_char n) && (b64_char n <? 256)
                      | None => false
                      end).
  assert (P n = true) as Hc
    by (apply (range_all P 0 64); [vm_compute; reflexivity | lia]).
  unfold P in Hc. destruct (b64_value (b64_char n)) as [m|]; [|discriminate].
  apply andb_true_iff in Hc as [Hc H4]. apply andb_true_iff in Hc as [Hc H3].
  apply andb_true_iff in Hc as [H1 H2].
  apply Z.eqb_eq in H1. subst m. apply negb_true_iff in H2.
  unfold byte_range. split; [reflexivity|]. split; [exact H2|]. lia.
Qed.

Lemma a2b_step (n : Z) (rest : list Z) (quad_pos leftchar pads : Z) (out : list Z) :
  0 <= n < 64 ->
  a2b (b64_char n :: rest) quad_pos leftchar pads out
  = if quad_pos =? 0 then a2b rest 1 n 0 out
    else if quad_pos =? 1 then
      a2b rest 2 (n mod 16) 0 ((leftchar * 4 + n / 16) :: out)
    else if quad_pos =? 2 then
      a2b rest 3 (n mod 4) 0 ((leftchar * 16 + n / 4) :: out)
    else a2b rest 0 0 0 ((leftchar * 64 + n) :: out).
Proof.
  intros Hn. destruct (b64_char_value n Hn) as (Hv & Hp & _).
  cbn [a2b]. now rewrite Hp, Hv.
Qed.

Lemma a2b_b2a (n : nat) :
  forall bytes out, (List.length bytes <= n)%nat -> List.Forall byte_range bytes ->
    a2b (b2a bytes) 0 0 0 out = Py.Ret (rev out ++ bytes)%list.
Proof.
  induction n as [|n IH]; intros bytes out Hlen Hall.
  - destruct bytes; [|simpl in Hlen; lia]. simpl. now rewrite app_nil_r.
  - destruct bytes as [|a [|b [|c rest]]].
    + simpl. now rewrite app_nil_r.
    + inversion Hall as [|? ? Ha _]; subst. unfold byte_range in Ha.
      cbn [b2a]. rewrite !a2b_step by (Z.div_mod_to_equations; lia). cbn.
      replace (a / 4 * 4 + (a mod 4 * 16) / 16) with a
        by (Z.div_mod_to_equations; lia).
      reflexivity.
    + inversion Hall as [|? ? Ha Hall']; subst.
      inversion Hall' as [|? ? Hb _]; subst. unfold byte_range in Ha, Hb.
      cbn [b2a]. rewrite !a2b_step by (Z.div_mod_to_equations; lia). cbn.
      replace (a / 4 * 4 + (a mod 4 * 16 + b / 16) / 16) with a
        by (Z.div_mod_to_equations; lia).
      replace ((a mod 4 * 16 + b / 16) mod 16 * 16 + (b mod 16 * 4) / 4) with b
        by (Z.div_mod_to_equations; lia).
      now rewrite <- !app_assoc.
    + inversion Hall as [|? ? Ha Hall']; subst.
      inversion Hall' as [|? ? Hb Hall'']; subst.
      inversion Hall'' as [|? ? Hc Hrest]; subst.
      unfold byte_range in Ha, Hb, Hc.
      cbn [b2a]. rewrite !a2b_step by (Z.div_mod_to_equations; lia).
      cbn [Z.eqb Pos.eqb]. rewrite IH; [|simpl in Hlen; lia | exact Hrest].
      replace (a / 4 * 4 + (a mod 4 * 16 + b / 16) / 16) with a
        by (Z.div_mod_to_equations; lia).
      replace ((a mod 4 * 16 + b / 16) mod 16 * 16
               + (b mod 16 * 4 + c / 64) / 4) with b
        by (Z.div_mod_to_equations; lia).
      replace ((b mod 16 * 4 + c / 64) mod 4 * 64 + c mod 64) with c
        by (Z.div_mod_to_equations; lia).
      cbn [rev]. now rewrite <- !app_assoc.
Qed.

Lemma b2a_range (n : nat) :
  forall bytes, (List.length bytes <= n)%nat -> List.Forall byte_range bytes ->
    List.Forall (fun c => 0 <= c < 128) (b2a bytes).
Proof.
  assert (forall k, 0 <= k < 64 -> 0 <= b64_char k < 128) as Hc.
  { intros k Hk.
    pose (P := fun k => (0 <=? b64_char k) && (b64_char k <? 128)).
    assert (P k = true) as E
      by (apply (range_all P 0 64); [vm_compute; reflexivity | lia]).
    unfold P in E. lia. }
  induction n as [|n IH]; intros bytes Hlen Hall.
  - destruct bytes; [constructor | simpl in Hlen; lia].
  - destruct bytes as [|a [|b [|c rest]]].
    + constructor.
    + inversion Hall as [|? ? Ha _]; subst. unfold byte_range in Ha.
      cbn [b2a]. repeat constructor; try lia;
        apply Hc; Z.div_mod_to_equations; lia.
    + inversion Hall as [|? ? Ha Hall']; subst.
      inversion Hall' as [|? ? Hb _]; subst. unfold byte_range in Ha, Hb.
      cbn [b2a]. repeat constructor; try lia;
        apply Hc; Z.div_mod_to_equations; lia.
    + inversion Hall as [|? ? Ha Hall']; subst.
      inversion Hall' as [|? ? Hb Hall'']; subst.
      inversion Hall'' as [|? ? Hc' Hrest]; subst.
      unfold byte_range in Ha, Hb, Hc'.
      cbn [b2a]. repeat (constructor; [apply Hc; Z.div_mod_to_equations; lia|]).
      apply IH; [simpl in Hlen; lia | exact Hrest].
Qed.

(** base64.b64decode(base64.b64encode(b)) == b *)
Lemma b64decode_b64encode (s : string) :
  b64decode (b64encode s) = Py.Ret s.
Proof.
  unfold b64decode, b64encode.
  rewrite bytes_of_bytes.
  - rewrite (a2b_b2a _ (bytes_of s) [] (le_n _) (bytes_of_range s)).
    simpl. now rewrite of_bytes_of.
  - eapply List.Forall_impl; [|apply (b2a_range _ _ (le_n _) (bytes_of_range s))].
    unfold byte_range. simpl. lia.
Qed.


(** *** ASCII text *)

Lemma is_ascii_append (a b : string) :
  is_ascii (a ++ b) = is_ascii a && is_ascii b.
Proof.
  induction a as [|c a IH]; [reflexivity|].
  rewrite append_cons. simpl. now rewrite IH, andb_assoc.
Qed.

Lemma is_ascii_of_bytes (l : list Z) :
  List.Forall (fun c => 0 <= c < 128) l -> is_ascii (of_bytes l) = true.
Proof.
  induction 1 as [|b l Hb _ IH]; [reflexivity|]. simpl.
  rewrite N_ascii_embedding by lia. rewrite IH, andb_true_r.
  apply N.ltb_lt. lia.
Qed.

Lemma utf8_valid_ascii (fuel : nat) :
  forall s, is_ascii s = true -> (String.length s <= fuel)%nat ->
    utf8_valid fuel false (bytes_of s) = true.
Proof.
  induction fuel as [|fuel IH]; intros [|c s] Hs Hlen; try reflexivity.
  - simpl in Hlen. lia.
  - simpl in Hs. apply andb_true_iff in Hs as [Hc Hs]. apply N.ltb_lt in Hc.
    cbn [bytes_of utf8_valid utf8_head].
    assert ((Z.of_N (N_of_ascii c) <? 128) = true) as -> by (apply Z.ltb_lt; lia).
    cbn [skipn]. apply IH; [exact Hs | simpl in Hlen; lia].
Qed.

(** ASCII text encodes, and ASCII bytes decode, to the same characters. *)
Lemma str_encode_ascii (s : string) :
  is_ascii s = true -> str_encode s = Py.Ret s.
Proof.
  intros Hs. unfold str_encode. now rewrite utf8_valid_ascii.
Qed.

Lemma bytes_decode_ascii (s : string) :
  is_ascii s = true -> bytes_decode s = Py.Ret s.
Proof.
  intros Hs. unfold bytes_decode. now rewrite utf8_valid_ascii.
Qed.

Lemma b64encode_ascii (s : string) : is_ascii (b64encode s) = true.
Proof.
  unfold b64encode. apply is_ascii_of_bytes.
  apply (b2a_range _ _ (le_n _) (bytes_of_range s)).
Qed.

(** A key made of ASCII text decodes to that text. *)
Lemma key_decodes (text : string) :
  is_ascii text = true ->
  exists key, bytes_decode (b64encode text) = Py.Ret key
    /\ str_encode key = Py.Ret key
    /\ b64decode key = Py.Ret text.
Proof.
  intros Ht. exists (b64encode text).
  rewrite bytes_decode_ascii, str_encode_ascii by apply b64encode_ascii.
  now rewrite b64decode_b64encode.
Qed.

(** *** Decimal digits *)

Definition digit (v : Z) : ascii := ascii_of_N (Z.to_N (48 + v)).

(** The last [w] decimal digits of [z]. *)
Fixpoint digits (w : nat) (z : Z) : string :=
  match w with
  | O => ""
  | S w' => digits w' (z / 10) ++ String (digit (z mod 10)) ""
  end.

Lemma string_of_revapp (d d' : Decimal.uint) :
  NilEmpty.string_of_uint (Decimal.revapp d d')
  = NilEmpty.string_of_uint (Decimal.revapp d Decimal.Nil)
    ++ NilEmpty.string_of_uint d'.
Proof.
  revert d'. induction d as [|d IH|d IH|d IH|d IH|d IH|d IH|d IH|d IH|d IH|d IH];
    intros d'; cbn [Decimal.revapp]; [reflexivity|..];
    rewrite IH; symmetry; rewrite IH; rewrite append_assoc; reflexivity.
Qed.

Definition str_N (n : N) : string :=
  NilEmpty.string_of_uint (Decimal.rev (DecimalPos.Unsigned.to_lu n)).

Lemma str_of_int_N (n : N) : str_of_int (Z.of_N n) = str_N n.
Proof.
  destruct n as [|p]; [reflexivity|].
  unfold str_of_int, str_N. cbn [Z.of_N Z.to_int NilZero.string_of_int].
  pose proof (DecimalPos.Unsigned.to_uint_nonnil p) as Hn.
  unfold NilZero.string_of_uint. unfold Pos.to_uint in *.
  cbn [DecimalPos.Unsigned.to_lu].
  destruct (Decimal.rev (Pos.to_little_uint p)); [congruence|reflexivity..].
Qed.

Lemma to_lu_add (p : positive) (k : nat) :
  DecimalPos.Unsigned.to_lu (10 * N.pos p + N.of_nat k)
  = Nat.iter k Decimal.Little.succ
      (Decimal.D0 (DecimalPos.Unsigned.to_lu (N.pos p))).
Proof.
  induction k as [|k IH].
  - rewrite N.add_0_r. apply DecimalPos.Unsigned.to_ldec_tenfold.
  - replace (10 * N.pos p + N.of_nat (S k))%N
      with (N.succ (10 * N.pos p + N.of_nat k)) by lia.
    rewrite DecimalPos.Unsigned.to_lu_succ, IH. reflexivity.
Qed.

Lemma str_N_step (p : positive) (k : N) :
  (k < 10)%N ->
  str_N (10 * N.pos p + k)
  = str_N (N.pos p) ++ String (ascii_of_N (48 + k)) "".
Proof.
  intros Hk.
  assert (exists j, (j < 10)%nat /\ k = N.of_nat j) as (j & Hj & ->)
    by (exists (N.to_nat k); lia).
  clear Hk. unfold str_N. rewrite to_lu_add.
  do 10 (destruct j as [|j];
         [cbv [Nat.iter nat_rect]; cbn [Decimal.Little.succ]; unfold Decimal.rev;
          cbn [Decimal.revapp]; rewrite string_of_revapp; reflexivity|]).
  lia.
Qed.

Lemma str_of_int_digit (z : Z) : 0 <= z < 10 -> str_of_int z = String (digit z) "".
Proof.
  intros Hz.
  assert (z = 0 \/ z = 1 \/ z = 2 \/ z = 3 \/ z = 4 \/ z = 5 \/ z = 6 \/ z = 7
          \/ z = 8 \/ z = 9) as Hc by lia.
  repeat destruct Hc as [->|Hc]; try subst z; reflexivity.
Qed.

(** The decimal text of a number of two digits or more is that of its tenth
    followed by its last digit. *)
Lemma str_of_int_step (z : Z) :
  10 <= z -> str_of_int z = str_of_int (z / 10) ++ String (digit (z mod 10)) "".
Proof.
  intros Hz.
  assert (0 < z / 10) as Hq by (Z.div_mod_to_equations; lia).
  assert (0 <= z mod 10 < 10) as Hr by (Z.div_mod_to_equations; lia).
  destruct (z / 10) as [|p|] eqn:Ep; try lia.
  replace z with (Z.of_N (10 * N.pos p + Z.to_N (z mod 10))) at 1.
  - rewrite str_of_int_N, str_N_step by lia.
    rewrite <- str_of_int_N. cbn [Z.of_N]. unfold digit.
    do 3 f_equal. lia.
  - rewrite N2Z.inj_add, N2Z.inj_mul, Z2N.id by lia. cbn [Z.of_N].
    rewrite <- Ep. Z.div_mod_to_equations. lia.
Qed.

Lemma length_append (a b : string) :
  String.length (a ++ b) = (String.length a + String.length b)%nat.
Proof.
  induction a as [|c a IH]; [reflexivity|]. rewrite append_cons. simpl.
  now rewrite IH.
Qed.

Lemma of_bytes_app (a b : list Z) :
  of_bytes (a ++ b)%list = of_bytes a ++ of_bytes b.
Proof.
  induction a as [|x a IH]; [reflexivity|]. simpl. rewrite append_cons.
  now rewrite IH.
Qed.

Lemma str_of_int_length (z : Z) : 0 <= z -> (1 <= String.length (str_of_int z))%nat.
Proof.
  intros Hz. destruct (Z.lt_ge_cases z 10) as [Hlt|Hge].
  - rewrite str_of_int_digit by lia. simpl. lia.
  - rewrite str_of_int_step, length_append by lia. simpl. lia.
Qed.

(** Padding to [w] digits a number of at most [w] digits writes its last
    [w] digits. *)
Lemma zero_padded_digits (w : nat) :
  forall z, 0 <= z < 10 ^ Z.of_nat (S w) -> zero_padded (S w) z = digits (S w) z.
Proof.
  induction w as [|w IH]; intros z Hz.
  - change (10 ^ Z.of_nat 1) with 10 in Hz.
    unfold zero_padded. rewrite str_of_int_digit by lia. cbn.
    rewrite Z.mod_small by lia. reflexivity.
  - assert (0 <= z / 10 < 10 ^ Z.of_nat (S w)) as Hq.
    { rewrite (Nat2Z.inj_succ (S w)), Z.pow_succ_r in Hz by lia.
      Z.div_mod_to_equations. lia. }
    change (digits (S (S w)) z)
      with (digits (S w) (z / 10) ++ String (digit (z mod 10)) "").
    rewrite <- IH by exact Hq.
    destruct (Z.lt_ge_cases z 10) as [Hlt|Hge].
    + rewrite Z.div_small, Z.mod_small by lia.
      unfold zero_padded. rewrite str_of_int_digit by lia.
      change (str_of_int 0) with "0".
      change (String.length (String (digit z) "")) with 1%nat.
      change (String.length "0") with 1%nat.
      replace (S (S w) - 1)%nat with (S w) by lia.
      replace (S w - 1)%nat with w by lia.
      cbn [repeat]. rewrite repeat_cons, of_bytes_app. cbn [of_bytes].
      reflexivity.
    + unfold zero_padded. rewrite (str_of_int_step z) by lia.
      rewrite length_append. cbn [String.length].
      replace (S (S w) - (String.length (str_of_int (z / 10)) + 1))%nat
        with (S w - String.length (str_of_int (z / 10)))%nat by lia.
      now rewrite append_assoc.
Qed.

Lemma digit_code (k : Z) : 0 <= k <= 9 -> Z.of_N (N_of_ascii (digit k)) = 48 + k.
Proof.
  intros Hk. unfold digit. rewrite N_ascii_embedding by lia. lia.
Qed.

Lemma pow10_succ (w : nat) : 10 ^ Z.of_nat (S w) = 10 * 10 ^ Z.of_nat w.
Proof. rewrite Nat2Z.inj_succ, Z.pow_succ_r by lia. reflexivity. Qed.

Lemma length_digits (w : nat) : forall z, String.length (digits w z) = w.
Proof.
  induction w as [|w IH]; intros z; [reflexivity|].
  cbn [digits]. rewrite length_append, IH. simpl. lia.
Qed.

(** The parser's digit readers on a number written with [w] digits. *)
Lemma fixed_digits_digits (w : nat) :
  forall k acc z rest, 0 <= z < 10 ^ Z.of_nat w ->
    fixed_digits (w + k) acc (digits w z ++ rest)
    = fixed_digits k (acc * 10 ^ Z.of_nat w + z) rest.
Proof.
  induction w as [|w IH]; intros k acc z rest Hz.
  - change (10 ^ Z.of_nat 0) with 1 in *. cbn [digits Nat.add].
    rewrite append_nil_l. f_equal. lia.
  - rewrite pow10_succ in Hz. cbn [digits].
    rewrite append_assoc, append_cons, append_nil_l.
    replace (S w + k)%nat with (w + S k)%nat by lia.
    rewrite IH by (Z.div_mod_to_equations; lia).
    cbn [fixed_digits]. rewrite digit_code by (Z.div_mod_to_equations; lia).
    replace ((48 <=? 48 + z mod 10) && (48 + z mod 10 <=? 57)) with true
      by (symmetry; apply andb_true_iff; split; apply Z.leb_le;
          Z.div_mod_to_equations; lia).
    f_equal. rewrite pow10_succ. Z.div_mod_to_equations. lia.
Qed.

Lemma digits_of_digits (w : nat) :
  forall z rest,
    digits_of (digits w z ++ rest)
    = (digits w z ++ fst (digits_of rest), snd (digits_of rest)).
Proof.
  induction w as [|w IH]; intros z rest.
  - cbn [digits]. rewrite !append_nil_l. now destruct (digits_of rest).
  - cbn [digits]. rewrite append_assoc, append_cons, append_nil_l, IH.
    cbn [digits_of].
    assert (0 <= z mod 10 <= 9) as Hd by (Z.div_mod_to_equations; lia).
    pose proof (digit_code _ Hd) as Hc.
    replace ((48 <=? N_of_ascii (digit (z mod 10)))%N
             && (N_of_ascii (digit (z mod 10)) <=? 57)%N) with true
      by (symmetry; apply andb_true_iff; split; apply N.leb_le; lia).
    destruct (digits_of rest) as [d r]. cbn [fst snd].
    now rewrite append_assoc, append_cons, append_nil_l.
Qed.

Lemma int_of_digits_digits (w : nat) :
  forall acc z, 0 <= z < 10 ^ Z.of_nat w ->
    int_of_digits acc (digits w z) = acc * 10 ^ Z.of_nat w + z.
Proof.
  assert (forall a b acc,
            int_of_digits acc (a ++ b) = int_of_digits (int_of_digits acc a) b)
    as Happ.
  { induction a as [|c a IHa]; intros b acc; [reflexivity|].
    rewrite append_cons. cbn [int_of_digits]. apply IHa. }
  induction w as [|w IH]; intros acc z Hz.
  - change (10 ^ Z.of_nat 0) with 1 in *. cbn. lia.
  - rewrite pow10_succ in Hz. cbn [digits].
    rewrite Happ, IH by (Z.div_mod_to_equations; lia).
    cbn [int_of_digits]. rewrite digit_code by (Z.div_mod_to_equations; lia).
    rewrite pow10_succ. Z.div_mod_to_equations. lia.
Qed.

Lemma take_append (a b : string) : take (String.length a) (a ++ b) = a.
Proof.
  induction a as [|c a IH]; [now destruct b|].
  rewrite append_cons. cbn [String.length take]. now rewrite IH.
Qed.

(** *** The calendar *)

(** The years of a day number, as [ord2ymd] splits it. *)
Lemma year_split (n0 : Z) :
  0 <= n0 <= 3652058 ->
  let n400 := n0 / 146097 in
  let r1 := n0 mod 146097 in
  let n100 := r1 / 36524 in
  let r2 := r1 mod 36524 in
  let n4 := r2 / 1461 in
  let r3 := r2 mod 1461 in
  let n1 := r3 / 365 in
  let r4 := r3 mod 365 in
  let year := n400 * 400 + 1 + n100 * 100 + n4 * 4 + n1 in
  if (n1 =? 4) || (n100 =? 4) then
    is_leap (year - 1) = true
    /\ days_before_year (year - 1) + 366 = n0 + 1
    /\ 1 <= year - 1 <= 9999
  else
    is_leap year = (n1 =? 3) && (negb (n4 =? 24) || (n100 =? 3))
    /\ days_before_year year = n0 - r4
    /\ 1 <= year <= 9999 /\ 0 <= r4 <= 364.
Proof.
  intros Hn. cbv zeta.
  unfold is_leap, days_before_year.
  destruct (_ =? 4) eqn:E1; [|destruct (_ / 36524 =? 4) eqn:E2]; cbn [orb].
  - apply Z.eqb_eq in E1. repeat split.
    + apply andb_true_iff. split.
      * apply Z.eqb_eq. Z.div_mod_to_equations. lia.
      * apply orb_true_iff. left. apply negb_true_iff, Z.eqb_neq.
        Z.div_mod_to_equations. lia.
    + Z.div_mod_to_equations. lia.
    + Z.div_mod_to_equations. lia.
    + Z.div_mod_to_equations. lia.
  - apply Z.eqb_eq in E2. apply Z.eqb_neq in E1. repeat split.
    + apply andb_true_iff. split.
      * apply Z.eqb_eq. Z.div_mod_to_equations. lia.
      * apply orb_true_iff. right. apply Z.eqb_eq.
        Z.div_mod_to_equations. lia.
    + Z.div_mod_to_equations. lia.
    + Z.div_mod_to_equations. lia.
    + Z.div_mod_to_equations. lia.
  - apply Z.eqb_neq in E1, E2. repeat split.
    + destruct (_ =? 3) eqn:E3; cbn [andb].
      * apply Z.eqb_eq in E3.
        replace (_ mod 4 =? 0) with true
          by (symmetry; apply Z.eqb_eq; Z.div_mod_to_equations; lia).
        cbn [andb].
        destruct (_ =? 24) eqn:E4; cbn [negb orb].
        -- apply Z.eqb_eq in E4.
           replace (_ mod 100 =? 0) with true
             by (symmetry; apply Z.eqb_eq; Z.div_mod_to_equations; lia).
           cbn [negb orb].
           destruct (_ =? 3) eqn:E5.
           ++ apply Z.eqb_eq in E5. apply Z.eqb_eq.
              Z.div_mod_to_equations. lia.
           ++ apply Z.eqb_neq in E5. apply Z.eqb_neq.
              Z.div_mod_to_equations. lia.
        -- apply Z.eqb_neq in E4.
           replace (_ mod 100 =? 0) with false
             by (symmetry; apply Z.eqb_neq; Z.div_mod_to_equations; lia).
           reflexivity.
      * apply Z.eqb_neq in E3.
        replace (_ mod 4 =? 0) with false
          by (symmetry; apply Z.eqb_neq; Z.div_mod_to_equations; lia).
        reflexivity.
    + Z.div_mod_to_equations. lia.
    + Z.div_mod_to_equations. lia.
    + Z.div_mod_to_equations. lia.
    + Z.div_mod_to_equations. lia.
    + Z.div_mod_to_equations. lia.
Qed.

(** The month and day of the [n]-th day (from 0) of a year, as [ord2ymd]
    finds them. *)
Definition month_day (leapyear : bool) (n : Z) : Z * Z :=
  let month := (n + 50) / 32 in
  let preceding :=
    days_before_month 1 month + (if (2 <? month) && leapyear then 1 else 0) in
  if n <? preceding then
    let month := month - 1 in
    let preceding :=
      preceding - (nth (Z.to_nat month) [0; 31; 28; 31; 30; 31; 30; 31; 31; 30; 31; 30; 31] 0
                   + (if (month =? 2) && leapyear then 1 else 0)) in
    (month, n - preceding + 1)
  else (month, n - preceding + 1).

Definition month_length (leap : bool) (m : Z) : Z :=
  if m =? 2 then (if leap then 29 else 28)
  else if (m =? 4) || (m =? 6) || (m =? 9) || (m =? 11) then 30 else 31.

Definition month_offset (leap : bool) (m : Z) : Z :=
  nth (Z.to_nat m) [0; 0; 31; 59; 90; 120; 151; 181; 212; 243; 273; 304; 334] 0
  + (if (2 <? m) && leap then 1 else 0).

Definition month_day_ok (leap : bool) (n : Z) : bool :=
  let (m, d) := month_day leap n in
  (1 <=? m) && (m <=? 12) && (1 <=? d) && (d <=? month_length leap m)
  && (month_offset leap m + d =? n + 1).

Lemma month_day_spec (leap : bool) (n : Z) :
  0 <= n <= 364 ->
  let (m, d) := month_day leap n in
  1 <= m <= 12 /\ 1 <= d <= month_length leap m
  /\ month_offset leap m + d = n + 1.
Proof.
  intros Hn.
  assert (month_day_ok leap n = true) as Hok.
  { apply (range_all (month_day_ok leap) 0 365); [|lia].
    destruct leap; vm_compute; reflexivity. }
  unfold month_day_ok in Hok. destruct (month_day leap n) as [m d].
  apply andb_true_iff in Hok as [Hok H5]. apply andb_true_iff in Hok as [Hok H4].
  apply andb_true_iff in Hok as [Hok H3]. apply andb_true_iff in Hok as [H1 H2].
  lia.
Qed.

Lemma ord2ymd_eq (n : Z) :
  ord2ymd n =
  let n0 := n - 1 in
  let n100 := n0 mod 146097 / 36524 in
  let n4 := n0 mod 146097 mod 36524 / 1461 in
  let n1 := n0 mod 146097 mod 36524 mod 1461 / 365 in
  let year := n0 / 146097 * 400 + 1 + n100 * 100 + n4 * 4 + n1 in
  if (n1 =? 4) || (n100 =? 4) then (year - 1, 12, 31)
  else
    let (m, d) :=
      month_day ((n1 =? 3) && (negb (n4 =? 24) || (n100 =? 3)))
        (n0 mod 146097 mod 36524 mod 1461 mod 365) in
    (year, m, d).
Proof.
  unfold ord2ymd, month_day. cbv zeta.
  destruct (_ || _); [reflexivity|].
  destruct (_ <? _); reflexivity.
Qed.

(** A day number of the years 1 to 9999 is the day number of its date. *)
Lemma ord2ymd_spec (n : Z) :
  1 <= n <= 3652059 ->
  let '(y, m, d) := ord2ymd n in
  1 <= y <= 9999 /\ 1 <= m <= 12 /\ 1 <= d <= days_in_month y m
  /\ ymd2ord y m d = n.
Proof.
  intros Hn. rewrite ord2ymd_eq. cbv zeta.
  assert (0 <= n - 1 <= 3652058) as H0 by lia.
  pose proof (year_split (n - 1) H0) as Hy. cbv zeta in Hy.
  destruct (_ || _).
  - revert Hy. generalize ((n - 1) / 146097 * 400 + 1
                        + (n - 1) mod 146097 / 36524 * 100
                        + (n - 1) mod 146097 mod 36524 / 1461 * 4
                        + (n - 1) mod 146097 mod 36524 mod 1461 / 365 - 1).
    intros y (Hleap & Hdays & Hrange).
    unfold ymd2ord, days_in_month, days_before_month. rewrite Hleap.
    change (Z.to_nat 12) with 12%nat. cbn -[days_before_year]. lia.
  - destruct Hy as (Hleap & Hdays & Hrange & Hr).
    pose proof (month_day_spec
                  (((n - 1) mod 146097 mod 36524 mod 1461 / 365 =? 3)
                   && (negb ((n - 1) mod 146097 mod 36524 / 1461 =? 24)
                       || ((n - 1) mod 146097 / 36524 =? 3)))
                  _ Hr) as Hmd.
    destruct (month_day _ _) as [m d].
    rewrite <- Hleap in Hmd. clear Hleap. revert Hmd Hdays Hrange.
    generalize ((n - 1) / 146097 * 400 + 1
                + (n - 1) mod 146097 / 36524 * 100
                + (n - 1) mod 146097 mod 36524 / 1461 * 4
                + (n - 1) mod 146097 mod 36524 mod 1461 / 365).
    intros y Hmd Hdays Hrange.
    unfold ymd2ord.
    change (days_in_month ?y m) with (month_length (is_leap y) m).
    change (days_before_month ?y m) with (month_offset (is_leap y) m).
    rewrite Hdays. lia.
Qed.

(** *** isoformat and fromisoformat *)

Lemma fixed_digits_written (w : nat) (z : Z) (rest : string) :
  0 <= z < 10 ^ Z.of_nat w ->
  fixed_digits w 0 (digits w z ++ rest) = Some (z, rest).
Proof.
  intros Hz. rewrite <- (Nat.add_0_r w) at 1.
  rewrite fixed_digits_digits by exact Hz. cbn [fixed_digits]. reflexivity.
Qed.

Lemma digits_nonempty (w : nat) (z : Z) : digits (S w) z <> "".
Proof.
  intros E. pose proof (length_digits (S w) z) as Hl. rewrite E in Hl.
  discriminate Hl.
Qed.

(** The text [isoformat] writes for the fields of a naive datetime. *)
Definition iso_text (y m d hh mi ss micro : Z) : string :=
  digits 4 y ++ "-" ++ digits 2 m ++ "-" ++ digits 2 d ++ "T"
  ++ digits 2 hh ++ ":" ++ digits 2 mi ++ ":" ++ digits 2 ss
  ++ (if micro =? 0 then "" else "." ++ digits 6 micro).

Lemma iso_fields_written (y m d hh mi ss micro : Z) :
  0 <= y < 10000 -> 0 <= m < 100 -> 0 <= d < 100 ->
  0 <= hh < 100 -> 0 <= mi < 100 -> 0 <= ss < 100 -> 0 <= micro < 1000000 ->
  iso_fields (iso_text y m d hh mi ss micro)
  = Some (y, m, d, (hh, mi, ss, micro), None).
Proof.
  intros Hy Hm Hd Hhh Hmi Hss Hmicro. unfold iso_fields, iso_text.
  rewrite fixed_digits_written by (cbn; lia). cbn [opt_bind].
  rewrite append_cons, append_nil_l. cbn [opt_bind expect Ascii.eqb Bool.eqb].
  rewrite fixed_digits_written by (cbn; lia). cbn [opt_bind].
  rewrite append_cons, append_nil_l. cbn [opt_bind expect Ascii.eqb Bool.eqb].
  rewrite fixed_digits_written by (cbn; lia). cbn [opt_bind].
  rewrite append_cons, append_nil_l.
  rewrite fixed_digits_written by (cbn; lia). cbn [opt_bind].
  rewrite append_cons, append_nil_l. cbn [opt_bind expect Ascii.eqb Bool.eqb].
  rewrite fixed_digits_written by (cbn; lia). cbn [opt_bind].
  rewrite append_cons, append_nil_l. cbn [opt_bind expect Ascii.eqb Bool.eqb].
  rewrite fixed_digits_written by (cbn; lia). cbn [opt_bind].
  destruct (micro =? 0) eqn:E.
  - apply Z.eqb_eq in E. subst micro. reflexivity.
  - apply Z.eqb_neq in E. rewrite append_cons, append_nil_l.
    cbn [Ascii.eqb Bool.eqb orb].
    rewrite <- (append_nil_r (digits 6 micro)) at 1.
    rewrite digits_of_digits. cbn [digits_of fst snd]. rewrite append_nil_r.
    destruct (digits 6 micro) as [|c ds] eqn:Eds;
      [now apply digits_nonempty in Eds|].
    rewrite <- Eds.
    rewrite <- (length_digits 6 micro) at 1. rewrite take_append.
    rewrite int_of_digits_digits by (cbn; lia). cbn [opt_bind].
    reflexivity.
Qed.

(** The fields of the time of day. *)
Lemma time_fields (us : Z) :
  let t := us mod Py.day_us in
  0 <= t / Py.hour_us < 24
  /\ 0 <= t / (60 * Py.second_us) mod 60 < 60
  /\ 0 <= t / Py.second_us mod 60 < 60
  /\ 0 <= t mod Py.second_us < 1000000
  /\ ((t / Py.hour_us * 60 + t / (60 * Py.second_us) mod 60) * 60
       + t / Py.second_us mod 60) * Py.second_us + t mod Py.second_us = t.
Proof.
  cbv zeta. unfold Py.day_us, Py.hour_us, Py.second_us.
  Z.div_mod_to_equations. lia.
Qed.

Lemma day_number (us : Z) :
  0 <= us <= datetime_max ->
  1 <= us / Py.day_us + 1 <= 3652059
  /\ (us / Py.day_us + 1 - 1) * Py.day_us + us mod Py.day_us = us.
Proof.
  unfold datetime_max, Py.day_us, Py.hour_us, Py.second_us.
  intros Hus. Z.div_mod_to_equations. lia.
Qed.

Lemma days_in_month_bound (y m : Z) : days_in_month y m <= 31.
Proof.
  unfold days_in_month. destruct (m =? 2); [destruct (is_leap y); lia|].
  destruct (_ || _); lia.
Qed.

Lemma isoformat_text (us : Z) :
  0 <= us <= datetime_max ->
  let '(y, m, d) := ord2ymd (us / Py.day_us + 1) in
  let t := us mod Py.day_us in
  isoformat us
  = iso_text y m d (t / Py.hour_us) (t / (60 * Py.second_us) mod 60)
      (t / Py.second_us mod 60) (t mod Py.second_us).
Proof.
  intros Hus. unfold isoformat, iso_text.
  destruct (day_number us Hus) as [Hn _].
  pose proof (ord2ymd_spec _ Hn) as Hspec.
  destruct (ord2ymd (us / Py.day_us + 1)) as [[y m] d].
  destruct Hspec as (Hy & Hm & Hd & _).
  pose proof (days_in_month_bound y m) as Hdim.
  destruct (time_fields us) as (Hhh & Hmi & Hss & Hmicro & _).
  cbv zeta. revert Hhh Hmi Hss Hmicro.
  generalize (us mod Py.day_us / Py.hour_us).
  generalize (us mod Py.day_us / (60 * Py.second_us) mod 60).
  generalize (us mod Py.day_us / Py.second_us mod 60).
  generalize (us mod Py.day_us mod Py.second_us).
  intros micro ss mi hh Hhh Hmi Hss Hmicro.
  rewrite (zero_padded_digits 3) by (cbn; lia).
  rewrite !(zero_padded_digits 1) by (cbn; lia).
  destruct (_ =? 0); [reflexivity|].
  rewrite (zero_padded_digits 5) by (cbn; lia).
  reflexivity.
Qed.

(** A naive datetime of the years 1 to 9999 is read back from the text
    [isoformat] writes for it. *)
Lemma fromisoformat_isoformat (us : Z) :
  0 <= us <= datetime_max ->
  fromisoformat (isoformat us) = Py.Ret (Py.Naive us).
Proof.
  intros Hus. pose proof (isoformat_text us Hus) as Htext.
  destruct (day_number us Hus) as [Hn Hsum].
  pose proof (ord2ymd_spec _ Hn) as Hspec.
  destruct (ord2ymd (us / Py.day_us + 1)) as [[y m] d].
  destruct Hspec as (Hy & Hm & Hd & Hord).
  pose proof (days_in_month_bound y m) as Hdim.
  cbv zeta in Htext. rewrite Htext. clear Htext.
  destruct (time_fields us) as (Hhh & Hmi & Hss & Hmicro & Ht).
  cbv zeta in Ht.
  assert (forall hh mi ss micro,
            0 <= hh < 24 -> 0 <= mi < 60 -> 0 <= ss < 60 -> 0 <= micro < 1000000 ->
            fromisoformat (iso_text y m d hh mi ss micro)
            = Py.Ret (Py.Naive ((ymd2ord y m d - 1) * Py.day_us
                                + ((hh * 60 + mi) * 60 + ss) * Py.second_us
                                + micro))) as Hread.
  { clear - Hy Hm Hd Hdim. intros hh mi ss micro Hhh Hmi Hss Hmicro.
    unfold fromisoformat. rewrite iso_fields_written by lia.
    replace (y =? 0) with false by (symmetry; apply Z.eqb_neq; lia).
    replace ((m <? 1) || (12 <? m)) with false
      by (symmetry; apply orb_false_iff; split; apply Z.ltb_ge; lia).
    replace ((d <? 1) || (days_in_month y m <? d)) with false
      by (symmetry; apply orb_false_iff; split; apply Z.ltb_ge; lia).
    replace (23 <? hh) with false by (symmetry; apply Z.ltb_ge; lia).
    replace (59 <? mi) with false by (symmetry; apply Z.ltb_ge; lia).
    replace (59 <? ss) with false by (symmetry; apply Z.ltb_ge; lia).
    reflexivity. }
  rewrite Hread by assumption. rewrite Hord. do 2 f_equal.
  rewrite <- Z.add_assoc, Ht. exact Hsum.
Qed.


End CPythonFacts.

(** ** The reminder store *)

Module ReminderStoreFacts.
Import Reminders ReminderStore RemindersFacts.

(** *** The ids of a store built by the manager *)

Inductive operation :=
| Add (now : Z) (title description : string) (due : due_argument)
      (reminder_type priority : string)
| Complete (now reminder_id : Z)
| Snooze (now reminder_id hours : Z).

Section Ids.

Variable isoformat : Z -> string.

Definition apply (reminders : list reminder) (op : operation) : list reminder :=
  match op with
  | Add now title description due reminder_type priority =>
      fst (add_reminder isoformat now reminders title description due
             reminder_type priority)
  | Complete now reminder_id =>
      fst (complete_reminder isoformat now reminders reminder_id)
  | Snooze now reminder_id hours =>
      match snooze_reminder isoformat now reminders reminder_id hours with
      | Snoozed reminders' _ => reminders'
      | Overflow => reminders
      end
  end.

Lemma complete_reminder_ids now reminders reminder_id :
  map r_id (fst (complete_reminder isoformat now reminders reminder_id))
  = map r_id reminders.
Proof.
  induction reminders as [|r rs IH]; [reflexivity|]. cbn [complete_reminder].
  destruct (r_id r =? reminder_id); [reflexivity|].
  destruct (complete_reminder isoformat now rs reminder_id) as [rs' found].
  cbn in *. now rewrite IH.
Qed.

Lemma snooze_reminder_ids now reminders reminder_id hours rs' found :
  snooze_reminder isoformat now reminders reminder_id hours = Snoozed rs' found ->
  map r_id rs' = map r_id reminders.
Proof.
  revert rs' found. induction reminders as [|r rs IH]; intros rs' found.
  - intros [= <- _]. reflexivity.
  - cbn [snooze_reminder]. destruct (r_id r =? reminder_id).
    + destruct (add_hours now hours); [|discriminate]. intros [= <- _]. reflexivity.
    + destruct (snooze_reminder isoformat now rs reminder_id hours)
        as [|rs0 found0]; [discriminate|].
      intros [= <- _]. cbn. now rewrite (IH rs0 found0).
Qed.

Definition sequential (reminders : list reminder) : Prop :=
  map r_id reminders = map Z.of_nat (seq 1 (List.length reminders)).

Lemma apply_sequential reminders op :
  sequential reminders -> sequential (apply reminders op).
Proof.
  unfold sequential. intros Hs.
  assert (forall rs', map r_id rs' = map r_id reminders ->
            map r_id rs' = map Z.of_nat (seq 1 (List.length rs'))) as Hsame.
  { intros rs' E. rewrite E, Hs. do 2 f_equal.
    rewrite <- (length_map r_id rs'), E. now rewrite length_map. }
  destruct op as [now title description due reminder_type priority
                 | now reminder_id | now reminder_id hours]; cbn [apply].
  - cbn [add_reminder fst]. rewrite map_app, length_app, Hs.
    cbn [List.length map]. rewrite Nat.add_1_r, seq_S, map_app. cbn [map].
    cbn [r_id]. do 2 f_equal. lia.
  - apply Hsame, complete_reminder_ids.
  - destruct (snooze_reminder isoformat now reminders reminder_id hours)
      as [|rs' found] eqn:E; [exact Hs|].
    apply Hsame. now apply (snooze_reminder_ids _ _ _ _ _ _ E).
Qed.

(** X8: starting from an empty store, whatever reminders are added,
    completed and snoozed, and in whatever order, the ids of the stored
    reminders are 1, 2, ..., n in stored order; in particular no two stored
    reminders share an id. *)
Theorem ids_stay_sequential (ops : list operation) :
  let reminders := fold_left apply ops [] in
  map r_id reminders = map Z.of_nat (seq 1 (List.length reminders))
  /\ List.NoDup (map r_id reminders).
Proof.
  cbv zeta.
  assert (sequential (fold_left apply ops [])) as Hs.
  { assert (sequential []) as H0 by reflexivity. revert H0.
    generalize (@nil reminder). induction ops as [|op ops IH]; intros rs Hrs.
    - exact Hrs.
    - cbn [fold_left]. apply IH. now apply apply_sequential. }
  split; [exact Hs|]. rewrite Hs.
  apply Finite.Injective_map_NoDup; [|apply seq_NoDup].
  intros x y. lia.
Qed.

End Ids.

(** *** What the operations do to the list of due reminders *)

Section DueAfter.

Variable fromisoformat : string -> Py.exc Py.datetime.
Variable clk : Py.clock.

Let now := Py.Naive (Py.local_now clk).

Lemma due_step_acc (acc : list reminder) (r : reminder) :
  due_step fromisoformat now acc r
  = try! d := due_step fromisoformat now [] r in Py.Ret (acc ++ d)%list.
Proof.
  unfold due_step. destruct (completed r); cbn; [now rewrite app_nil_r|].
  destruct (match snooze_text r with
            | Some s => _
            | None => _
            end) as [[|]|e]; cbn; [now rewrite app_nil_r| |reflexivity].
  destruct (fromisoformat (due_date r)) as [[y|y]|e]; cbn; try reflexivity.
  destruct (y <=? Py.local_now clk); cbn; [reflexivity | now rewrite app_nil_r].
Qed.

Lemma due_loop_acc (rs acc : list reminder) :
  due_loop fromisoformat now acc rs
  = try! d := due_loop fromisoformat now [] rs in Py.Ret (acc ++ d)%list.
Proof.
  revert acc. induction rs as [|r rs IH]; intros acc; cbn [due_loop].
  - cbn. now rewrite app_nil_r.
  - rewrite due_step_acc. destruct (due_step fromisoformat now [] r) as [a|e];
      cbn; [|reflexivity].
    rewrite (IH (acc ++ a)%list), (IH a).
    destruct (due_loop fromisoformat now [] rs) as [d|e]; cbn; [|reflexivity].
    now rewrite app_assoc.
Qed.

Lemma due_loop_cons (r : reminder) (rs : list reminder) :
  due_loop fromisoformat now [] (r :: rs)
  = try! a := due_step fromisoformat now [] r in
    try! d := due_loop fromisoformat now [] rs in Py.Ret (a ++ d)%list.
Proof.
  cbn [due_loop]. destruct (due_step fromisoformat now [] r) as [a|e];
    cbn; [|reflexivity].
  apply due_loop_acc.
Qed.

Lemma due_loop_app (l1 l2 acc : list reminder) :
  due_loop fromisoformat now acc (l1 ++ l2)
  = try! a := due_loop fromisoformat now acc l1 in
    due_loop fromisoformat now a l2.
Proof.
  revert acc. induction l1 as [|r l1 IH]; intros acc; [reflexivity|].
  cbn [app due_loop]. destruct (due_step fromisoformat now acc r); cbn;
    [apply IH | reflexivity].
Qed.

Lemma due_step_sub (r : reminder) (a : list reminder) :
  due_step fromisoformat now [] r = Py.Ret a -> a = [] \/ a = [r].
Proof.
  unfold due_step. destruct (completed r); [intros [= <-]; now left|].
  destruct (match snooze_text r with
            | Some s => _
            | None => _
            end) as [[|]|e]; cbn; [intros [= <-]; now left| |discriminate].
  destruct (fromisoformat (due_date r)) as [[y|y]|e]; cbn; try discriminate.
  destruct (y <=? Py.local_now clk); intros [= <-]; auto.
Qed.

Lemma due_loop_sub (rs due : list reminder) :
  due_loop fromisoformat now [] rs = Py.Ret due ->
  forall r, In r due -> In r rs.
Proof.
  revert due. induction rs as [|r0 rs IH]; intros due.
  - intros [= <-] r [].
  - rewrite due_loop_cons.
    destruct (due_step fromisoformat now [] r0) as [a|e] eqn:Ea; [|discriminate].
    destruct (due_loop fromisoformat now [] rs) as [d|e]; [|discriminate].
    cbn. intros [= <-] r Hr. apply in_app_or in Hr as [Hr|Hr].
    + destruct (due_step_sub r0 a Ea) as [-> | ->]; [destruct Hr|].
      destruct Hr as [<-|[]]. now left.
    + right. now apply (IH d).
Qed.

Definition other (reminder_id : Z) (r : reminder) : bool :=
  negb (r_id r =? reminder_id).

Lemma filter_other_fresh (reminder_id : Z) (l : list reminder) :
  (forall r, In r l -> r_id r <> reminder_id) ->
  List.filter (other reminder_id) l = l.
Proof.
  induction l as [|r l IH]; intros H; [reflexivity|]. cbn. unfold other at 1.
  assert ((r_id r =? reminder_id) = false) as ->
    by (apply Z.eqb_neq, H; now left).
  cbn. f_equal. apply IH. intros r' Hr'. apply H. now right.
Qed.

(** The list with the first reminder of the id changed. *)
Fixpoint replace_first (reminder_id : Z) (change : reminder -> reminder)
    (l : list reminder) : list reminder :=
  match l with
  | [] => []
  | r :: rest =>
      if r_id r =? reminder_id then change r :: rest
      else r :: replace_first reminder_id change rest
  end.

(** Replacing the first reminder that has the id by one that is not due
    removes the reminder of that id from the due list and nothing else. *)
Lemma hidden_not_due (rs : list reminder) (reminder_id : Z)
    (change : reminder -> reminder) :
  (forall r, r_id r = reminder_id ->
     due_step fromisoformat now [] (change r) = Py.Ret []) ->
  List.NoDup (map r_id rs) ->
  forall due,
    due_loop fromisoformat now [] rs = Py.Ret due ->
    due_loop fromisoformat now [] (replace_first reminder_id change rs)
    = Py.Ret (List.filter (other reminder_id) due).
Proof.
  intros Hchange. induction rs as [|r rs IH]; intros Hnd due.
  - intros [= <-]. reflexivity.
  - cbn [map] in Hnd. inversion Hnd as [|? ? Hnotin Hnd']; subst.
    rewrite due_loop_cons.
    destruct (due_step fromisoformat now [] r) as [a|e] eqn:Ea; [|discriminate].
    destruct (due_loop fromisoformat now [] rs) as [d|e] eqn:Ed; [|discriminate].
    cbn. intros [= <-]. rewrite List.filter_app. cbn [replace_first].
    destruct (r_id r =? reminder_id) eqn:E.
    + apply Z.eqb_eq in E. rewrite due_loop_cons, (Hchange r E), Ed. cbn.
      f_equal.
      assert (List.filter (other reminder_id) a = []) as ->.
      { destruct (due_step_sub r a Ea) as [-> | ->]; [reflexivity|].
        cbn. unfold other. rewrite E, Z.eqb_refl. reflexivity. }
      cbn. symmetry. apply filter_other_fresh.
      intros r' Hr' Eid. apply Hnotin. rewrite E, <- Eid.
      apply in_map. now apply (due_loop_sub rs d Ed).
    + rewrite due_loop_cons, Ea. cbn.
      rewrite (IH Hnd' d eq_refl). cbn. f_equal. f_equal.
      destruct (due_step_sub r a Ea) as [-> | ->]; [reflexivity|].
      cbn. unfold other. now rewrite E.
Qed.

End DueAfter.

Definition mark_completed (isoformat : Z -> string) (now : Z) (r : reminder)
  : reminder :=
  {| r_id := r_id r; title := title r; description := description r;
     due_date := due_date r; r_type := r_type r; priority := priority r;
     created := created r; completed := true;
     completed_date := Some (isoformat now);
     snoozed_until := snoozed_until r |}.


Lemma complete_reminder_spec isoformat now reminders reminder_id :
  complete_reminder isoformat now reminders reminder_id
  = (replace_first reminder_id (mark_completed isoformat now) reminders,
     existsb (Z.eqb reminder_id) (map r_id reminders)).
Proof.
  induction reminders as [|r rs IH]; [reflexivity|].
  cbn [complete_reminder replace_first map existsb].
  rewrite (Z.eqb_sym reminder_id). destruct (r_id r =? reminder_id);
    [reflexivity|].
  now rewrite IH.
Qed.


Lemma has_id (reminder_id : Z) (ids : list Z) :
  existsb (Z.eqb reminder_id) ids = true <-> In reminder_id ids.
Proof.
  rewrite existsb_exists. split.
  - intros (x & Hx & E). apply Z.eqb_eq in E. now subst.
  - intros H. exists reminder_id. split; [exact H | apply Z.eqb_refl].
Qed.

(** X9: complete_reminder returns True exactly when a stored reminder has
    the id.  On a store whose ids are distinct and on which get_due_reminders
    returns a list, after the call get_due_reminders returns that list
    without the reminder of the id: a completed reminder is never due again
    and no other reminder is affected. *)
Theorem completed_reminder_never_due (isoformat : Z -> string)
    (fromisoformat : string -> Py.exc Py.datetime) (clk : Py.clock)
    (now : Z) (reminders due : list reminder) (reminder_id : Z) :
  List.NoDup (map r_id reminders) ->
  get_due_reminders fromisoformat clk reminders = Py.Ret due ->
  let after := complete_reminder isoformat now reminders reminder_id in
  (snd after = true <-> In reminder_id (map r_id reminders))
  /\ get_due_reminders fromisoformat clk (fst after)
     = Py.Ret (List.filter (fun r => negb (r_id r =? reminder_id)) due).
Proof.
  intros Hnd Hdue. cbv zeta. rewrite complete_reminder_spec. cbn [fst snd].
  split; [apply has_id|].
  apply (hidden_not_due fromisoformat clk); try assumption.
  intros r _. reflexivity.
Qed.


(** X11: add_reminder with a naive datetime of the years 1 to 9999 as due
    date appends a reminder whose id is the number of stored reminders plus
    one; get_due_reminders then returns what it returned before, followed by
    the new reminder exactly when the clock reads the due date or later. *)
Theorem added_reminder_due_from_its_date (clk : Py.clock) (now due_at : Z)
    (reminders due : list reminder)
    (title description reminder_type priority : string) :
  0 <= due_at <= License.datetime_max ->
  get_due_reminders CPython.fromisoformat clk reminders = Py.Ret due ->
  let added :=
    add_reminder CPython.isoformat now reminders title description
      (Moment due_at) reminder_type priority in
  fst added = (reminders ++ [snd added])%list
  /\ r_id (snd added) = Z.of_nat (List.length reminders) + 1
  /\ get_due_reminders CPython.fromisoformat clk (fst added)
     = Py.Ret (if due_at <=? Py.local_now clk then (due ++ [snd added])%list
               else due).
Proof.
  intros Hrange Hdue. cbv zeta. cbn [add_reminder fst snd].
  split; [reflexivity|]. split; [reflexivity|].
  unfold get_due_reminders in *. rewrite due_loop_app, Hdue.
  cbn [Py.bind due_loop]. unfold due_step, snooze_text.
  cbn [completed snoozed_until due_date].
  rewrite (CPythonFacts.fromisoformat_isoformat due_at Hrange). cbn.
  now destruct (due_at <=? Py.local_now clk).
Qed.

(** *** On the store of four reminders, at 08:00 *)

Lemma store_ids_distinct : List.NoDup (map r_id store).
Proof.
  cbn. repeat constructor; cbn; intuition discriminate.
Qed.

Lemma store_due_at_eight :
  get_due_reminders CPython.fromisoformat clock_now store
  = Py.Ret [offboarding 1 "2024-03-01T07:00:00" false None].
Proof. vm_compute. reflexivity. Qed.

Lemma completed_reminder_never_due_witness :
  snd (complete_reminder CPython.isoformat 63844876800000000 store 1) = true
  /\ get_due_reminders CPython.fromisoformat clock_now
       (fst (complete_reminder CPython.isoformat 63844876800000000 store 1))
     = Py.Ret [].
Proof.
  destruct (completed_reminder_never_due CPython.isoformat CPython.fromisoformat
              clock_now 63844876800000000 store
              [offboarding 1 "2024-03-01T07:00:00" false None] 1
              store_ids_distinct store_due_at_eight) as [Hfound Hdue].
  split; [apply Hfound; cbn; auto | exact Hdue].
Defined.


Lemma added_reminder_due_from_its_date_witness :
  let added :=
    add_reminder CPython.isoformat 63844876800000000 store "Collect laptop" ""
      (Moment 63844875000000000) "offboarding" "high" in
  r_id (snd added) = 5
  /\ get_due_reminders CPython.fromisoformat clock_now (fst added)
     = Py.Ret [offboarding 1 "2024-03-01T07:00:00" false None; snd added].
Proof.
  destruct (added_reminder_due_from_its_date clock_now 63844876800000000
              63844875000000000 store
              [offboarding 1 "2024-03-01T07:00:00" false None]
              "Collect laptop" "" "offboarding" "high")
    as (_ & Hid & Hdue);
    [vm_compute; split; discriminate | exact store_due_at_eight |].
  split; [exact Hid | exact Hdue].
Defined.

End ReminderStoreFacts.

(** ** The text cleaner of the summarizer *)

Module CleanTextFacts.
Import Triage TriageFacts StringFacts.

Definition printable (c : ascii) : bool :=
  let n := N_of_ascii c in ((32 <=? n) && (n <=? 126))%N.

(** Printable ASCII with no space after a space; [prev_space] tells whether
    the character before the text is a space. *)
Fixpoint single_spaced (prev_space : bool) (s : string) : bool :=
  match s with
  | EmptyString => true
  | String c s' =>
      printable c
      && (if Ascii.eqb c " " then negb prev_space && single_spaced true s'
          else single_spaced false s')
  end.

(** The same, and the text does not end with a space. *)
Fixpoint tidy_after (prev_space : bool) (s : string) : bool :=
  match s with
  | EmptyString => negb prev_space
  | String c s' =>
      printable c
      && (if Ascii.eqb c " " then negb prev_space && tidy_after true s'
          else tidy_after false s')
  end.

(** Words of printable ASCII characters separated by single spaces. *)
Definition tidy (s : string) : bool :=
  match s with
  | EmptyString => true
  | _ => tidy_after true s
  end.

Lemma space_code (c : ascii) : Ascii.eqb c " " = (N_of_ascii c =? 32)%N.
Proof.
  destruct (Ascii.eqb_spec c " ") as [->|Hne]; [reflexivity|].
  symmetry. apply N.eqb_neq. intros E. apply Hne.
  rewrite <- (ascii_N_embedding c), E. reflexivity.
Qed.

Lemma printable_space (c : ascii) :
  printable c = true -> is_space c = Ascii.eqb c " ".
Proof.
  rewrite space_code. unfold printable, is_space. cbv zeta. intros H.
  apply andb_true_iff in H as [H1 H2]. apply N.leb_le in H1, H2.
  destruct (N.eqb_spec (N_of_ascii c) 32) as [E|E].
  - rewrite E. reflexivity.
  - apply orb_false_iff. split; apply andb_false_iff.
    + right. apply N.leb_gt. lia.
    + right. apply N.leb_gt. lia.
Qed.

Lemma blank_is_space : is_space " " = true.
Proof. reflexivity. Qed.

(** A character of the text after the first pass. *)
Lemma printable_or_blank_soft (c : ascii) :
  let c' := printable_or_blank c in
  printable c' = true \/ is_space c' = true.
Proof.
  cbv zeta. unfold printable_or_blank. cbv zeta.
  destruct ((32 <=? N_of_ascii c)%N && (N_of_ascii c <=? 126)%N) eqn:E;
    [now left|].
  destruct ((N_of_ascii c =? 9)%N || (N_of_ascii c =? 10)%N
            || (N_of_ascii c =? 13)%N) eqn:E2; [|now right].
  right. unfold is_space. cbv zeta.
  apply orb_true_iff in E2 as [E2|E2];
    [apply orb_true_iff in E2 as [E2|E2]|];
    apply N.eqb_eq in E2; rewrite E2; reflexivity.
Qed.

Fixpoint soft (s : string) : bool :=
  match s with
  | EmptyString => true
  | String c s' => (printable c || is_space c) && soft s'
  end.

Lemma map_chars_soft (text : string) : soft (map_chars printable_or_blank text) = true.
Proof.
  induction text as [|c s IH]; [reflexivity|]. cbn [map_chars soft].
  rewrite IH, andb_true_r. apply orb_true_iff, printable_or_blank_soft.
Qed.

Lemma soft_span (s : string) :
  soft s = true -> soft (snd (span is_space s)) = true.
Proof.
  induction s as [|c s IH]; [reflexivity|]. cbn [soft span]. intros H.
  apply andb_true_iff in H as [Hc Hs].
  destruct (is_space c) eqn:E.
  - specialize (IH Hs). destruct (span is_space s). exact IH.
  - cbn [snd soft]. now rewrite E, Hc, Hs.
Qed.

Definition starts_blank (s : string) : bool :=
  match s with
  | String c _ => is_space c
  | EmptyString => false
  end.

Lemma span_rest_not_blank (s : string) :
  starts_blank (snd (span is_space s)) = false.
Proof.
  destruct (span is_space s) as [a b] eqn:E. cbn [snd].
  destruct b as [|c b]; [reflexivity|]. exact (span_all _ _ _ _ _ E).
Qed.

(** The collapse of whitespace runs leaves single spaces between printable
    characters. *)
Lemma collapse_single_spaced (fuel : nat) :
  forall s prev,
    soft s = true -> (String.length s <= fuel)%nat ->
    (prev = true -> starts_blank s = false) ->
    single_spaced prev (re_sub_fuel fuel spaces_to_one s) = true.
Proof.
  induction fuel as [|fuel IH]; intros s prev Hsoft Hlen Hprev.
  - destruct s; [reflexivity | cbn in Hlen; lia].
  - cbn [re_sub_fuel]. unfold spaces_to_one.
    pose proof (span_length_sum is_space s) as Hsum.
    pose proof (soft_span s Hsoft) as Hrest.
    pose proof (span_rest_not_blank s) as Hnb.
    destruct (span is_space s) as [ws rest] eqn:E. cbn [fst snd] in *.
    destruct ws as [|w ws].
    + destruct s as [|c s]; [reflexivity|].
      assert (is_space c = false) as Hc.
      { cbn [span] in E. destruct (is_space c); [|reflexivity].
        destruct (span is_space s). discriminate E. }
      cbn [soft] in Hsoft. apply andb_true_iff in Hsoft as [Hp Hs].
      rewrite Hc, orb_false_r in Hp.
      cbn [single_spaced]. rewrite Hp. rewrite <- (printable_space c Hp), Hc.
      cbn [andb]. apply IH; [exact Hs | cbn in Hlen; lia | discriminate].
    + rewrite append_cons, append_nil_l. cbn [single_spaced].
      change (printable " ") with true. change (Ascii.eqb " " " ") with true.
      cbn [andb].
      assert (prev = false) as ->.
      { destruct prev; [|reflexivity]. specialize (Hprev eq_refl).
        destruct s as [|c s]; [discriminate E|]. cbn in Hprev.
        cbn [span] in E. rewrite Hprev in E. discriminate E. }
      cbn [negb andb].
      apply IH; [exact Hrest | cbn [String.length] in Hsum; lia | intros _; exact Hnb].
Qed.

Lemma single_spaced_weaken (s : string) :
  single_spaced true s = true -> single_spaced false s = true.
Proof.
  destruct s as [|c s]; [reflexivity|]. cbn [single_spaced].
  destruct (printable c); [|discriminate]. cbn [andb].
  destruct (Ascii.eqb c " "); [discriminate | auto].
Qed.

Lemma single_spaced_no_lead (s : string) :
  single_spaced true s = true -> lstrip s = s.
Proof.
  destruct s as [|c s]; [reflexivity|]. cbn [single_spaced]. intros H.
  apply andb_true_iff in H as [Hp H].
  apply lstrip_fixed. rewrite (printable_space c Hp).
  destruct (Ascii.eqb c " "); [discriminate H | reflexivity].
Qed.

Lemma lstrip_single_spaced (s : string) (prev : bool) :
  single_spaced prev s = true -> single_spaced true (lstrip s) = true.
Proof.
  destruct s as [|c s]; [reflexivity|]. cbn [single_spaced]. intros H.
  apply andb_true_iff in H as [Hp H].
  destruct (Ascii.eqb c " ") eqn:Ec.
  - apply andb_true_iff in H as [_ H].
    assert (lstrip (String c s) = lstrip s) as ->.
    { unfold lstrip. cbn [span]. rewrite (printable_space c Hp), Ec.
      now destruct (span is_space s). }
    now rewrite (single_spaced_no_lead s H).
  - rewrite lstrip_fixed by (now rewrite (printable_space c Hp)).
    cbn [single_spaced]. now rewrite Hp, Ec.
Qed.

Lemma rstrip_tidy (s : string) :
  forall prev, single_spaced prev s = true ->
    rstrip s = "" \/ tidy_after prev (rstrip s) = true.
Proof.
  induction s as [|c s IH]; intros prev H; [now left|].
  cbn [single_spaced] in H. apply andb_true_iff in H as [Hp H].
  cbn [rstrip]. rewrite (printable_space c Hp).
  destruct (Ascii.eqb c " ") eqn:Ec.
  - apply andb_true_iff in H as [Hprev H].
    destruct (IH true H) as [-> | Ht]; [now left|].
    destruct (rstrip s) as [|c' r] eqn:Er; [now left|]. right.
    cbn [tidy_after] in *. now rewrite Hp, Ec, Hprev, Ht.
  - destruct (IH false H) as [-> | Ht].
    + right. cbn [tidy_after]. now rewrite Hp, Ec.
    + destruct (rstrip s) as [|c' r] eqn:Er.
      * right. cbn [tidy_after]. now rewrite Hp, Ec.
      * right. cbn [tidy_after] in *. now rewrite Hp, Ec, Ht.
Qed.

Lemma clean_text_tidy (text : string) :
  tidy (clean_text_for_encoding text) = true.
Proof.
  unfold clean_text_for_encoding, strip, re_sub.
  set (m := map_chars printable_or_blank text).
  pose proof (collapse_single_spaced (String.length m) m false
                (map_chars_soft text) (le_n _)) as Hc.
  specialize (Hc ltac:(discriminate)).
  apply lstrip_single_spaced in Hc.
  destruct (rstrip_tidy _ true Hc) as [-> | Ht]; [reflexivity|].
  unfold tidy. now destruct (rstrip _).
Qed.

(** *** Tidy text is left as it is *)

Lemma tidy_single_spaced (s : string) :
  forall prev, tidy_after prev s = true -> single_spaced prev s = true.
Proof.
  induction s as [|c s IH]; intros prev H; [reflexivity|].
  cbn [tidy_after single_spaced] in *.
  apply andb_true_iff in H as [Hp H]. rewrite Hp. cbn [andb].
  destruct (Ascii.eqb c " ").
  - apply andb_true_iff in H as [-> H]. now rewrite (IH true H).
  - now apply IH.
Qed.

Lemma map_chars_printable (s : string) (prev : bool) :
  single_spaced prev s = true -> map_chars printable_or_blank s = s.
Proof.
  revert prev. induction s as [|c s IH]; intros prev H; [reflexivity|].
  cbn [single_spaced] in H. apply andb_true_iff in H as [Hp H].
  cbn [map_chars]. f_equal.
  - unfold printable_or_blank. cbv zeta. unfold printable in Hp. cbv zeta in Hp.
    now rewrite Hp.
  - destruct (Ascii.eqb c " ").
    + apply andb_true_iff in H as [_ H]. now apply (IH true).
    + now apply (IH false).
Qed.

Lemma collapse_fixed (fuel : nat) :
  forall s prev,
    single_spaced prev s = true -> (String.length s <= fuel)%nat ->
    re_sub_fuel fuel spaces_to_one s = s.
Proof.
  induction fuel as [|fuel IH]; intros s prev H Hlen; [reflexivity|].
  destruct s as [|c s]; [reflexivity|].
  cbn [single_spaced] in H. apply andb_true_iff in H as [Hp H].
  cbn [re_sub_fuel]. unfold spaces_to_one. cbn [span].
  rewrite (printable_space c Hp).
  destruct (Ascii.eqb c " ") eqn:Ec.
  - apply andb_true_iff in H as [_ H].
    apply Ascii.eqb_eq in Ec. subst c.
    assert (span is_space s = ("", s)) as ->.
    { destruct s as [|c' s']; [reflexivity|]. cbn [single_spaced] in H.
      apply andb_true_iff in H as [Hp' H]. cbn [span].
      rewrite (printable_space c' Hp').
      destruct (Ascii.eqb c' " "); [discriminate H | reflexivity]. }
    rewrite append_cons, append_nil_l. f_equal.
    apply (IH s true H). cbn in Hlen. lia.
  - f_equal. apply (IH s false H). cbn in Hlen. lia.
Qed.

Lemma rstrip_fixed (s : string) :
  forall prev, tidy_after prev s = true -> rstrip s = s.
Proof.
  induction s as [|c s IH]; intros prev H; [reflexivity|].
  cbn [tidy_after] in H. apply andb_true_iff in H as [Hp H].
  cbn [rstrip]. rewrite (printable_space c Hp).
  destruct (Ascii.eqb c " ") eqn:Ec.
  - apply andb_true_iff in H as [_ H]. rewrite (IH true H).
    destruct s; [discriminate H | reflexivity].
  - rewrite (IH false H). now destruct s.
Qed.

Lemma tidy_fixed (s : string) :
  tidy s = true -> clean_text_for_encoding s = s.
Proof.
  destruct s as [|c s]; [reflexivity|]. unfold tidy. intros H.
  pose proof (tidy_single_spaced _ _ H) as Hs.
  unfold clean_text_for_encoding, re_sub, strip.
  rewrite (map_chars_printable _ _ Hs).
  rewrite (collapse_fixed _ _ _ Hs (le_n _)).
  rewrite (single_spaced_no_lead _ Hs).
  exact (rstrip_fixed _ _ H).
Qed.

(** X12: whatever the text, _clean_text_for_encoding returns words of
    printable ASCII characters separated by single spaces (no control
    character, no character outside ASCII, no space at either end, no two
    spaces in a row); a text of that form is returned unchanged, so cleaning
    twice is cleaning once. *)
Theorem clean_text_normal_form (text : string) :
  tidy (clean_text_for_encoding text) = true
  /\ clean_text_for_encoding (clean_text_for_encoding text)
     = clean_text_for_encoding text
  /\ (tidy text = true <-> clean_text_for_encoding text = text).
Proof.
  pose proof (clean_text_tidy text) as Ht.
  split; [exact Ht|]. split; [now apply tidy_fixed|].
  split; [apply tidy_fixed|]. intros E. now rewrite <- E.
Qed.

End CleanTextFacts.
